(** * ClaRunner: the CLA orchestrator of cla-signature-bot (src/claRunner.ts)

    [ClaRunner.execute] is an asynchronous method that talks to a handful of
    collaborators (pull-request authors, allowlist, CLA file repository,
    pull-request comments, notarization, check runner, the platform's lock
    and organization-member endpoints) and to the action toolkit's logger.

    The embedding is shallow: the method is a computation in a state-and-
    exception monad [M].  The state holds the ordered trace of every call the
    method issues, the in-memory CLA file object that the runner shares with
    its repository, and the persisted ledger.  What the collaborators answer
    is part of the [ClaRunner] object itself, as the promises their methods
    return. *)

From Stdlib Require Import String List Bool NArith Lia DecimalString.
From ExtLib Require Import Structures.Monad Structures.MonadExc.
Import ListNotations.
Import MonadNotation.
Local Open Scope string_scope.
Local Open Scope list_scope.
Local Open Scope monad_scope.

(** ** Promises and outcomes *)

(** A promise as the awaiting code sees it once it has settled.  The reason
    of a rejection is not modelled: nothing in [claRunner.ts] inspects it. *)
Inductive Promise (A : Type) : Type :=
| Resolved (a : A)
| Rejected.
Arguments Resolved {A} a.
Arguments Rejected {A}.

(** What running a piece of the method yields: a value, or an exception
    (for an [async] method: the rejection of the promise it returned). *)
Inductive Outcome (A : Type) : Type :=
| Returned (a : A)
| Thrown.
Arguments Returned {A} a.
Arguments Thrown {A}.

(** The HTTP response envelope of the platform client ([response.data]). *)
Record Response (A : Type) : Type := { data : A }.
Arguments data {A} r.

(** An organization member as listed by the platform ([user.login]). *)
Record User : Type := { login : string }.

(** ** The data model the runner imports *)

(** [Author], [AuthorMap] and [ClaFile] are declared in modules that
    [claRunner.ts] imports; the runner uses them only through the members
    below, which are therefore an interface.  [addSignature] mutates the file
    object and returns the signatures it added: here it returns the new file
    contents together with that list. *)
Class ClaData : Type := {
  Author : Type;
  name : Author -> string;
  AuthorMap : Type;
  allSigned : AuthorMap -> bool;
  ClaFile : Type;
  mapSignedAuthors : ClaFile -> list Author -> AuthorMap;
  addSignature : ClaFile -> list Author -> ClaFile * list Author
}.

Section Runner.

Context `{ClaData}.

(** ** Collaborators *)

Record Octokit : Type := {
  issues_lock : string -> string -> N -> Promise unit;
  orgs_listMembers : string -> Promise (Response (list User))
}.

Record IInputSettings : Type := {
  payloadAction : string;
  pullRequestNumber : N;
  localRepositoryOwner : string;
  localRepositoryName : string;
  allowOrganizationMembers : bool;
  octokitLocal : Octokit
}.

Record Allowlist : Type := {
  isUserAllowlisted : Author -> bool
}.

(** Modelled from the spec: ClaFileRepository ([claFileRepository.ts] is not
    among the sources).  [getClaFile] fetches and parses the persisted file,
    [commitClaFile] serializes the current in-memory file and commits it.
    The two fields say whether the platform request succeeds; what the
    requests do to the state is in [claFileRepository_getClaFile] and
    [claFileRepository_commitClaFile] below. *)
Record ClaFileRepository : Type := {
  getClaFile : Promise unit;
  commitClaFile : string -> Promise unit
}.

Record PullComments : Type := {
  getNewSignatures : AuthorMap -> Promise (list Author);
  setClaComment : AuthorMap -> Promise unit
}.

Record PullAuthors : Type := {
  getAuthors : Promise (list Author)
}.

Record BlockchainPoster : Type := {
  postToBlockchain : list Author -> Promise unit
}.

Record PullCheckRunner : Type := {
  rerunLastCheck : Promise unit
}.

(** The fields of the class, after construction. *)
Record ClaRunner : Type := {
  settings : IInputSettings;
  claFileRepository : ClaFileRepository;
  allowlist : Allowlist;
  pullComments : PullComments;
  pullAuthors : PullAuthors;
  blockchainPoster : BlockchainPoster;
  pullCheckRunner : PullCheckRunner
}.

(** [context.payload] of the action toolkit, as far as [execute] reads it.
    [pull_request] is an object when present, hence truthy. *)
Record Issue : Type := { pull_request : option string }.
Record Payload : Type := { issue : option Issue }.
Record Context : Type := { payload : Payload }.

(** ** Trace and state *)

(** One constructor per call that leaves the method. *)
Inductive Event : Type :=
| CoreInfo (msg : string)
| CoreDebug (msg : string)
| CoreError (msg : string)
| CoreSetFailed (msg : string)
| IssuesLock (owner repo : string) (issue_number : N)
| OrgsListMembers (org : string)
| GetAuthors
| IsUserAllowlisted (a : Author)
| GetClaFile
| MapSignedAuthors (authors : list Author)
| AddSignature (authors : list Author)
| GetNewSignatures (m : AuthorMap)
| CommitClaFile (message : string)
| PostToBlockchain (signatures : list Author)
| SetClaComment (m : AuthorMap)
| RerunLastCheck
| AllSigned (m : AuthorMap).

(** [claFile] is the one file object that [getClaFile] hands out and that
    the repository keeps for [commitClaFile]; [ledger] is the persisted CLA
    file on the platform, as it stands once every issued request has
    settled; [trace] is in chronological order. *)
Record State : Type := {
  claFile : option ClaFile;
  ledger : ClaFile;
  trace : list Event
}.

Definition emit (s : State) (es : list Event) : State :=
  {| claFile := claFile s; ledger := ledger s; trace := trace s ++ es |}.

Definition set_claFile (s : State) (f : ClaFile) : State :=
  {| claFile := Some f; ledger := ledger s; trace := trace s |}.

Definition set_ledger (s : State) (f : ClaFile) : State :=
  {| claFile := claFile s; ledger := f; trace := trace s |}.

(** ** The monad *)

Definition M (A : Type) : Type := State -> Outcome A * State.

#[global] Instance Monad_M : Monad M := {
  ret := fun A (a : A) s => (Returned a, s);
  bind := fun A B (m : M A) (k : A -> M B) s =>
    match m s with
    | (Returned a, s') => k a s'
    | (Thrown, s') => (Thrown, s')
    end
}.

#[global] Instance MonadExc_M : MonadExc unit M := {
  raise := fun A _ s => (Thrown, s);
  catch := fun A (m : M A) (h : unit -> M A) s =>
    match m s with
    | (Returned a, s') => (Returned a, s')
    | (Thrown, s') => h tt s'
    end
}.

Definition log (e : Event) : M unit :=
  fun s => (Returned tt, emit s [e]).

(** Calling a collaborator's asynchronous method: the call is issued (and
    traced) at once and hands back a promise. *)
Definition call {A : Type} (e : Event) (p : Promise A) : M (Promise A) :=
  log e ;; ret p.

(** [await p]: the value of a resolved promise, an exception for a rejected
    one. *)
Definition await {A : Type} (m : M (Promise A)) : M A :=
  p <- m ;;
  match p with
  | Resolved a => ret a
  | Rejected => raise tt
  end.

(** An [async] function never throws into its caller: its body's exception
    becomes the rejection of the promise it returns. *)
Definition async {A : Type} (body : M A) : M (Promise A) :=
  catch (a <- body ;; ret (Resolved a)) (fun _ => ret Rejected).

(** [Promise.all] over an array literal: the element expressions are
    evaluated left to right, so the calls are issued in that order; the
    result resolves when all do and rejects when one does. *)
Definition Promise_all2 {A B : Type}
    (m1 : M (Promise A)) (m2 : M (Promise B)) : M (Promise (A * B)) :=
  p1 <- m1 ;;
  p2 <- m2 ;;
  ret match p1, p2 with
      | Resolved a, Resolved b => Resolved (a, b)
      | _, _ => Rejected
      end.

Fixpoint Promise_all {A : Type} (ms : list (M (Promise A))) : M (Promise (list A)) :=
  match ms with
  | [] => ret (Resolved [])
  | m :: ms' =>
      p <- m ;;
      ps <- Promise_all ms' ;;
      ret match p, ps with
          | Resolved a, Resolved l => Resolved (a :: l)
          | _, _ => Rejected
          end
  end.

(** [Array.prototype.filter] with a callback that has effects. *)
Fixpoint filterM {A : Type} (p : A -> M bool) (l : list A) : M (list A) :=
  match l with
  | [] => ret []
  | a :: l' =>
      b <- p a ;;
      r <- filterM p l' ;;
      ret (if b then a :: r else r)
  end.

(** [Array.prototype.includes] on an array of strings. *)
Definition includes (l : list string) (x : string) : bool :=
  existsb (String.eqb x) l.

(** [Array.prototype.join]. *)
Definition join (sep : string) (l : list string) : string :=
  String.concat sep l.

(** A non-negative integer inside a template literal. *)
Definition string_of_N (n : N) : string :=
  NilZero.string_of_uint (N.to_uint n).

(** ** The calls the method makes *)

Definition core_info (msg : string) : M unit := log (CoreInfo msg).
Definition core_debug (msg : string) : M unit := log (CoreDebug msg).
Definition core_error (msg : string) : M unit := log (CoreError msg).
Definition core_setFailed (msg : string) : M unit := log (CoreSetFailed msg).

Definition octokit_issues_lock (o : Octokit) (owner repo : string) (issue_number : N)
  : M (Promise unit) :=
  call (IssuesLock owner repo issue_number) (issues_lock o owner repo issue_number).

Definition octokit_orgs_listMembers (o : Octokit) (org : string)
  : M (Promise (Response (list User))) :=
  call (OrgsListMembers org) (orgs_listMembers o org).

Definition pullAuthors_getAuthors (this : ClaRunner) : M (Promise (list Author)) :=
  call GetAuthors (getAuthors (pullAuthors this)).

Definition allowlist_isUserAllowlisted (this : ClaRunner) (a : Author) : M bool :=
  log (IsUserAllowlisted a) ;; ret (isUserAllowlisted (allowlist this) a).

(** Modelled from the spec: ClaFileRepository.getClaFile.  When the fetch
    succeeds the in-memory file object holds the contents of the ledger. *)
Definition claFileRepository_getClaFile (this : ClaRunner) : M (Promise unit) :=
  fun s =>
    match getClaFile (claFileRepository this) with
    | Resolved tt => (Returned (Resolved tt), set_claFile (emit s [GetClaFile]) (ledger s))
    | Rejected => (Returned Rejected, emit s [GetClaFile])
    end.

(** Modelled from the spec: ClaFileRepository.commitClaFile.  When the commit
    succeeds the ledger holds the contents of the in-memory file object. *)
Definition claFileRepository_commitClaFile (this : ClaRunner) (message : string)
  : M (Promise unit) :=
  fun s =>
    match commitClaFile (claFileRepository this) message, claFile s with
    | Resolved tt, Some f =>
        (Returned (Resolved tt), set_ledger (emit s [CommitClaFile message]) f)
    | Resolved tt, None => (Returned Rejected, emit s [CommitClaFile message])
    | Rejected, _ => (Returned Rejected, emit s [CommitClaFile message])
    end.

(** The methods of the file object; without an object the member access
    throws, as on [undefined]. *)
Definition claFile_mapSignedAuthors (authors : list Author) : M AuthorMap :=
  fun s =>
    match claFile s with
    | Some f => (Returned (mapSignedAuthors f authors), emit s [MapSignedAuthors authors])
    | None => (Thrown, s)
    end.

Definition claFile_addSignature (authors : list Author) : M (list Author) :=
  fun s =>
    match claFile s with
    | Some f =>
        let (f', added) := addSignature f authors in
        (Returned added, set_claFile (emit s [AddSignature authors]) f')
    | None => (Thrown, s)
    end.

Definition authorMap_allSigned (m : AuthorMap) : M bool :=
  log (AllSigned m) ;; ret (allSigned m).

Definition pullComments_getNewSignatures (this : ClaRunner) (m : AuthorMap)
  : M (Promise (list Author)) :=
  call (GetNewSignatures m) (getNewSignatures (pullComments this) m).

Definition pullComments_setClaComment (this : ClaRunner) (m : AuthorMap)
  : M (Promise unit) :=
  call (SetClaComment m) (setClaComment (pullComments this) m).

Definition blockchainPoster_postToBlockchain (this : ClaRunner) (signatures : list Author)
  : M (Promise unit) :=
  call (PostToBlockchain signatures) (postToBlockchain (blockchainPoster this) signatures).

Definition pullCheckRunner_rerunLastCheck (this : ClaRunner) : M (Promise unit) :=
  call RerunLastCheck (rerunLastCheck (pullCheckRunner this)).

(** ** claRunner.ts *)

(** [private async lockPullRequest()] *)
Definition lockPullRequest (this : ClaRunner) : M (Promise unit) :=
  let n := string_of_N (pullRequestNumber (settings this)) in
  async (
    core_info ("Locking pull request #" ++ n
               ++ " to safe guard the pull request's CLA signatures.") ;;
    catch
      (await (octokit_issues_lock (octokitLocal (settings this))
                (localRepositoryOwner (settings this))
                (localRepositoryName (settings this))
                (pullRequestNumber (settings this))) ;;
       core_info ("Successfully locked pull request #" ++ n ++ "."))
      (fun _ => core_error ("Failed to lock pull request #" ++ n ++ "."))).

(** [private async getOrganizationMembers()] *)
Definition getOrganizationMembers (this : ClaRunner) : M (Promise (list string)) :=
  async (
    if negb (allowOrganizationMembers (settings this)) then ret []
    else
      response <- await (octokit_orgs_listMembers (octokitLocal (settings this))
                           (localRepositoryOwner (settings this))) ;;
      ret (map login (data response))).

(** [!context.payload.issue?.pull_request] *)
Definition not_pull_request (context : Context) : bool :=
  match issue (payload context) with
  | Some i => match pull_request i with Some _ => false | None => true end
  | None => true
  end.

(** The [filter] of line 62, allowlist call included. *)
Definition requiredAuthors (this : ClaRunner)
    (rawAuthors : list Author) (organizationMembers : list string) : M (list Author) :=
  filterM (fun a =>
             allowlisted <- allowlist_isUserAllowlisted this a ;;
             ret (negb allowlisted && negb (includes organizationMembers (name a))))
          rawAuthors.

(** [public async execute()]; [Thrown] stands for the rejection of the
    promise the method returns. *)
Definition execute (context : Context) (this : ClaRunner) : M bool :=
  if payloadAction (settings this) =? "closed" then
    await (lockPullRequest this) ;;
    ret true
  else if (payloadAction (settings this) =? "issue_comment") && not_pull_request context then
    core_info "Skipping issue comment" ;;
    ret true
  else
    '(rawAuthors, organizationMembers) <-
        await (Promise_all2 (pullAuthors_getAuthors this) (getOrganizationMembers this)) ;;
    requiredAuthors <- requiredAuthors this rawAuthors organizationMembers ;;
    if Nat.eqb (length requiredAuthors) 0 then
      core_info "No committers left after allowlisting. Approving pull request." ;;
      ret true
    else
      core_debug ("Found a total of " ++ string_of_N (N.of_nat (length requiredAuthors))
                  ++ " authors after allowlisting.") ;;
      core_debug ("Authors: " ++ join ", " (map name requiredAuthors)) ;;
      await (claFileRepository_getClaFile this) ;;
      authorMap <- claFile_mapSignedAuthors requiredAuthors ;;
      confirmed <- await (pullComments_getNewSignatures this authorMap) ;;
      newSignature <- claFile_addSignature confirmed ;;
      authorMap <-
        (if Nat.ltb 0 (length newSignature) then
           let newNames := join ", " (map name newSignature) in
           core_debug ("Found new signatures: " ++ newNames ++ ".") ;;
           authorMap <- claFile_mapSignedAuthors requiredAuthors ;;
           await (Promise_all
                    [ claFileRepository_commitClaFile this ("Add " ++ newNames ++ ".");
                      blockchainPoster_postToBlockchain this newSignature;
                      pullComments_setClaComment this authorMap;
                      pullCheckRunner_rerunLastCheck this ]) ;;
           ret authorMap
         else
           await (pullComments_setClaComment this authorMap) ;;
           ret authorMap) ;;
      signed <- authorMap_allSigned authorMap ;;
      if negb signed then
        core_setFailed "Waiting on additional CLA signatures." ;;
        ret false
      else
        ret true.

End Runner.

Arguments State {_}.
Arguments Event {_}.
Arguments M {_} A.
Arguments ClaRunner {_}.

(** ** A concrete data model, for running the method *)

Module Scenario.

(** Modelled from the spec: Author, AuthorMap and ClaFile (their modules are
    not among the sources).  An author is its [name]; the CLA file is the
    ordered list of signed names, each at most once; [addSignature] appends
    the names not yet present and returns only those; an author map gives
    each requested author its signed status and [allSigned] holds when every
    entry is signed. *)
Fixpoint add_names (f : list string) (authors : list string) : list string * list string :=
  match authors with
  | [] => (f, [])
  | a :: rest =>
      if includes f a then add_names f rest
      else let (f', added) := add_names (f ++ [a]) rest in (f', a :: added)
  end.

#[export] Instance model : ClaData := {
  Author := string;
  name := fun a => a;
  AuthorMap := list (string * bool);
  allSigned := forallb snd;
  ClaFile := list string;
  mapSignedAuthors := fun f authors => map (fun a => (a, includes f a)) authors;
  addSignature := add_names
}.

(** Modelled from the spec: PullComments.getNewSignatures returns the
    unsigned authors of the map that posted the confirmation keyword. *)
Definition confirmations (commenters : list string) (m : list (string * bool)) : list string :=
  map fst (filter (fun e => negb (snd e) && includes commenters (fst e)) m).

Definition promise_of (ok : bool) : Promise unit :=
  if ok then Resolved tt else Rejected.

(** A runner on repository [acme/widgets], pull request 7, whose allowlist
    is the single name [dependabot] and whose organization has the single
    member [carol]. *)
Definition runner (action : string) (members_enabled lock_ok notarize_ok : bool)
    (authors commenters : list string) : ClaRunner :=
  {| settings :=
       {| payloadAction := action;
          pullRequestNumber := 7;
          localRepositoryOwner := "acme";
          localRepositoryName := "widgets";
          allowOrganizationMembers := members_enabled;
          octokitLocal :=
            {| issues_lock := fun _ _ _ => promise_of lock_ok;
               orgs_listMembers := fun _ => Resolved {| data := [ {| login := "carol" |} ] |} |} |};
     claFileRepository :=
       {| getClaFile := Resolved tt; commitClaFile := fun _ => Resolved tt |};
     allowlist := {| isUserAllowlisted := fun a => String.eqb a "dependabot" |};
     pullComments :=
       {| getNewSignatures := fun m => Resolved (confirmations commenters m);
          setClaComment := fun _ => Resolved tt |};
     pullAuthors := {| getAuthors := Resolved authors |};
     blockchainPoster := {| postToBlockchain := fun _ => promise_of notarize_ok |};
     pullCheckRunner := {| rerunLastCheck := Resolved tt |} |}.

Definition on_pull_request : Context :=
  {| payload := {| issue := Some {| pull_request := Some "pulls/7" |} |} |}.

Definition on_plain_issue : Context :=
  {| payload := {| issue := Some {| pull_request := None |} |} |}.

(** The state a run starts from: no file object yet, the given ledger. *)
Definition start (signed : list string) : State :=
  {| claFile := None; ledger := signed; trace := [] |}.

(** The spec's scenarios.  Carol is an organization member and never
    required. *)

(** Scenario 2: alice is the one author and has signed before. *)
Definition already_signed : ClaRunner :=
  runner "synchronize" true true true ["alice"] [].

(** Scenario 3: alice and bob authored, alice posts the keyword. *)
Definition alice_confirms : ClaRunner :=
  runner "synchronize" true true true ["carol"; "alice"; "bob"] ["alice"].

(** Scenario 3 again, with the notarization service down and every other
    request succeeding. *)
Definition notarization_down : ClaRunner :=
  runner "synchronize" true true false ["carol"; "alice"; "bob"] ["alice"].

(** Scenario 4, with the platform refusing the lock. *)
Definition closed_lock_refused : ClaRunner :=
  runner "closed" true false true ["alice"; "bob"] [].

(** Scenario 5: a comment on an issue that is not a pull request. *)
Definition plain_issue_comment : ClaRunner :=
  runner "issue_comment" true true true ["alice"; "bob"] ["alice"].

(** Only exempt authors, organization exemption on. *)
Definition all_exempt : ClaRunner :=
  runner "opened" true true true ["carol"; "dependabot"] [].

(** Organization exemption off: carol is required like anyone else. *)
Definition members_off : ClaRunner :=
  runner "opened" false true true ["carol"; "dependabot"] [].

(** A runner with one collaborator's answer replaced. *)
Definition with_authors (r : ClaRunner) (p : Promise (list string)) : ClaRunner :=
  {| settings := settings r;
     claFileRepository := claFileRepository r;
     allowlist := allowlist r;
     pullComments := pullComments r;
     pullAuthors := {| getAuthors := p |};
     blockchainPoster := blockchainPoster r;
     pullCheckRunner := pullCheckRunner r |}.

Definition with_listing (r : ClaRunner) (p : Promise (Response (list User))) : ClaRunner :=
  {| settings :=
       {| payloadAction := payloadAction (settings r);
          pullRequestNumber := pullRequestNumber (settings r);
          localRepositoryOwner := localRepositoryOwner (settings r);
          localRepositoryName := localRepositoryName (settings r);
          allowOrganizationMembers := allowOrganizationMembers (settings r);
          octokitLocal :=
            {| issues_lock := issues_lock (octokitLocal (settings r));
               orgs_listMembers := fun _ => p |} |};
     claFileRepository := claFileRepository r;
     allowlist := allowlist r;
     pullComments := pullComments r;
     pullAuthors := pullAuthors r;
     blockchainPoster := blockchainPoster r;
     pullCheckRunner := pullCheckRunner r |}.

Definition with_file_load (r : ClaRunner) (p : Promise unit) : ClaRunner :=
  {| settings := settings r;
     claFileRepository :=
       {| getClaFile := p; commitClaFile := commitClaFile (claFileRepository r) |};
     allowlist := allowlist r;
     pullComments := pullComments r;
     pullAuthors := pullAuthors r;
     blockchainPoster := blockchainPoster r;
     pullCheckRunner := pullCheckRunner r |}.

Definition with_scan (r : ClaRunner) (p : Promise (list string)) : ClaRunner :=
  {| settings := settings r;
     claFileRepository := claFileRepository r;
     allowlist := allowlist r;
     pullComments :=
       {| getNewSignatures := fun _ => p;
          setClaComment := setClaComment (pullComments r) |};
     pullAuthors := pullAuthors r;
     blockchainPoster := blockchainPoster r;
     pullCheckRunner := pullCheckRunner r |}.

Definition with_comment (r : ClaRunner) (p : Promise unit) : ClaRunner :=
  {| settings := settings r;
     claFileRepository := claFileRepository r;
     allowlist := allowlist r;
     pullComments :=
       {| getNewSignatures := getNewSignatures (pullComments r);
          setClaComment := fun _ => p |};
     pullAuthors := pullAuthors r;
     blockchainPoster := blockchainPoster r;
     pullCheckRunner := pullCheckRunner r |}.

Definition with_rerun (r : ClaRunner) (p : Promise unit) : ClaRunner :=
  {| settings := settings r;
     claFileRepository := claFileRepository r;
     allowlist := allowlist r;
     pullComments := pullComments r;
     pullAuthors := pullAuthors r;
     blockchainPoster := blockchainPoster r;
     pullCheckRunner := {| rerunLastCheck := p |} |}.

(** A pull request closed while the platform accepts the lock. *)
Definition closed_lock_accepted : ClaRunner :=
  runner "closed" true true true ["alice"; "bob"] [].

(** Carol the member, and an author whose name differs from hers by case. *)
Definition case_differs : ClaRunner :=
  runner "opened" true true true ["carol"; "Carol"; "dependabot"] [].

End Scenario.

(** ** Describing a run *)

Section Descriptions.

Context `{ClaData}.

(** The requests that write to the platform or to the ledger service. *)
Definition is_write (e : Event) : bool :=
  match e with
  | IssuesLock _ _ _ | CommitClaFile _ | PostToBlockchain _
  | SetClaComment _ | RerunLastCheck => true
  | _ => false
  end.

Definition is_OrgsListMembers (e : Event) : bool :=
  match e with
  | OrgsListMembers _ => true
  | _ => false
  end.

(** The run is neither the "closed" branch nor the skipped issue comment. *)
Definition evaluates (context : Context) (this : ClaRunner) : Prop :=
  (payloadAction (settings this) =? "closed") = false /\
  ((payloadAction (settings this) =? "issue_comment") && not_pull_request context) = false.

(** What [getOrganizationMembers] resolves to, and the call it issues. *)
Definition members_answer (this : ClaRunner) : Promise (list string) :=
  if allowOrganizationMembers (settings this) then
    match orgs_listMembers (octokitLocal (settings this))
            (localRepositoryOwner (settings this)) with
    | Resolved response => Resolved (map login (data response))
    | Rejected => Rejected
    end
  else Resolved [].

Definition members_call (this : ClaRunner) : list Event :=
  if allowOrganizationMembers (settings this)
  then [OrgsListMembers (localRepositoryOwner (settings this))]
  else [].

(** The spec's words for step 4: an author is required when it is not
    allowlisted and not among the organization members; the required authors
    are the fetched authors that are required, in their original order. *)
Definition required (this : ClaRunner) (organizationMembers : list string) (a : Author) : bool :=
  negb (isUserAllowlisted (allowlist this) a) && negb (includes organizationMembers (name a)).

Definition required_spec (this : ClaRunner)
    (rawAuthors : list Author) (organizationMembers : list string) : list Author :=
  filter (required this organizationMembers) rawAuthors.

(** Events of lines 57 to 62. *)
Definition fetch_events (this : ClaRunner) (rawAuthors : list Author) : list Event :=
  [GetAuthors] ++ members_call this ++ map IsUserAllowlisted rawAuthors.

(** Events of lines 69 to 75. *)
Definition scan_events (req : list Author) (m : AuthorMap) (confirmed : list Author)
  : list Event :=
  [ CoreDebug ("Found a total of " ++ string_of_N (N.of_nat (length req))
               ++ " authors after allowlisting.");
    CoreDebug ("Authors: " ++ join ", " (map name req));
    GetClaFile;
    MapSignedAuthors req;
    GetNewSignatures m;
    AddSignature confirmed ].

(** Events of lines 77 to 84. *)
Definition writeback_events (req added : list Author) (m : AuthorMap) : list Event :=
  [ CoreDebug ("Found new signatures: " ++ join ", " (map name added) ++ ".");
    MapSignedAuthors req;
    CommitClaFile ("Add " ++ join ", " (map name added) ++ ".");
    PostToBlockchain added;
    SetClaComment m;
    RerunLastCheck ].

(** Events of lines 90 to 95. *)
Definition verdict_events (m : AuthorMap) : list Event :=
  AllSigned m ::
  (if allSigned m then [] else [CoreSetFailed "Waiting on additional CLA signatures."]).

(** The four requests of lines 81 to 84 all succeed. *)
Definition writeback_resolves (this : ClaRunner) (added : list Author) (m : AuthorMap) : bool :=
  match commitClaFile (claFileRepository this) ("Add " ++ join ", " (map name added) ++ "."),
        postToBlockchain (blockchainPoster this) added,
        setClaComment (pullComments this) m,
        rerunLastCheck (pullCheckRunner this) with
  | Resolved _, Resolved _, Resolved _, Resolved _ => true
  | _, _, _, _ => false
  end.

Definition lock_events (this : ClaRunner) : list Event :=
  let n := string_of_N (pullRequestNumber (settings this)) in
  [ CoreInfo ("Locking pull request #" ++ n
              ++ " to safe guard the pull request's CLA signatures.");
    IssuesLock (localRepositoryOwner (settings this))
               (localRepositoryName (settings this))
               (pullRequestNumber (settings this));
    match issues_lock (octokitLocal (settings this))
            (localRepositoryOwner (settings this))
            (localRepositoryName (settings this))
            (pullRequestNumber (settings this)) with
    | Resolved _ => CoreInfo ("Successfully locked pull request #" ++ n ++ ".")
    | Rejected => CoreError ("Failed to lock pull request #" ++ n ++ ".")
    end ].

(** Every event a computation adds to the trace satisfies [P]. *)
Definition emits {A : Type} (P : Event -> Prop) (m : M A) : Prop :=
  forall s, exists es, trace (snd (m s)) = trace s ++ es /\ Forall P es.

End Descriptions.

(** [l] is [l'] with some elements left out, the others in their order. *)
Inductive Subsequence {A : Type} : list A -> list A -> Prop :=
| Subsequence_nil : Subsequence [] []
| Subsequence_skip (x : A) (l l' : list A) : Subsequence l l' -> Subsequence l (x :: l')
| Subsequence_keep (x : A) (l l' : list A) : Subsequence l l' -> Subsequence (x :: l) (x :: l').

(** ** The shapes a run can take *)

Section Shapes.

Context `{ClaData}.

(** Events of lines 69 to 72. *)
Definition load_events (req : list Author) : list Event :=
  [ CoreDebug ("Found a total of " ++ string_of_N (N.of_nat (length req))
               ++ " authors after allowlisting.");
    CoreDebug ("Authors: " ++ join ", " (map name req));
    GetClaFile ].

(** [Shape context this s outcome events]: a run of [execute] from [s] that
    ends with [outcome] after adding [events] to the trace.  One constructor
    per way through the method: the two early exits, a rejected fetch, no
    author left, a rejected file load, a rejected comment scan, and the two
    branches of line 76. *)
Inductive Shape (context : Context) (this : ClaRunner) (s : State)
  : Outcome bool -> list Event -> Prop :=
| Shape_closed :
    payloadAction (settings this) = "closed" ->
    Shape context this s (Returned true) (lock_events this)
| Shape_skipped :
    payloadAction (settings this) = "issue_comment" ->
    not_pull_request context = true ->
    Shape context this s (Returned true) [CoreInfo "Skipping issue comment"]
| Shape_fetch_rejected :
    evaluates context this ->
    getAuthors (pullAuthors this) = Rejected \/ members_answer this = Rejected ->
    Shape context this s Thrown ([GetAuthors] ++ members_call this)
| Shape_none_required (rawAuthors : list Author) (organizationMembers : list string) :
    evaluates context this ->
    getAuthors (pullAuthors this) = Resolved rawAuthors ->
    members_answer this = Resolved organizationMembers ->
    required_spec this rawAuthors organizationMembers = [] ->
    Shape context this s (Returned true)
      (fetch_events this rawAuthors
       ++ [CoreInfo "No committers left after allowlisting. Approving pull request."])
| Shape_file_rejected (rawAuthors : list Author) (organizationMembers : list string) :
    let req := required_spec this rawAuthors organizationMembers in
    evaluates context this ->
    getAuthors (pullAuthors this) = Resolved rawAuthors ->
    members_answer this = Resolved organizationMembers ->
    req <> [] ->
    getClaFile (claFileRepository this) = Rejected ->
    Shape context this s Thrown (fetch_events this rawAuthors ++ load_events req)
| Shape_scan_rejected (rawAuthors : list Author) (organizationMembers : list string) :
    let req := required_spec this rawAuthors organizationMembers in
    let m0 := mapSignedAuthors (ledger s) req in
    evaluates context this ->
    getAuthors (pullAuthors this) = Resolved rawAuthors ->
    members_answer this = Resolved organizationMembers ->
    req <> [] ->
    getClaFile (claFileRepository this) = Resolved tt ->
    getNewSignatures (pullComments this) m0 = Rejected ->
    Shape context this s Thrown
      (fetch_events this rawAuthors ++ load_events req
       ++ [MapSignedAuthors req; GetNewSignatures m0])
| Shape_unchanged (rawAuthors : list Author) (organizationMembers : list string)
    (confirmed : list Author) (f : ClaFile) :
    let req := required_spec this rawAuthors organizationMembers in
    let m0 := mapSignedAuthors (ledger s) req in
    evaluates context this ->
    getAuthors (pullAuthors this) = Resolved rawAuthors ->
    members_answer this = Resolved organizationMembers ->
    req <> [] ->
    getClaFile (claFileRepository this) = Resolved tt ->
    getNewSignatures (pullComments this) m0 = Resolved confirmed ->
    addSignature (ledger s) confirmed = (f, []) ->
    Shape context this s
      (match setClaComment (pullComments this) m0 with
       | Resolved _ => Returned (allSigned m0)
       | Rejected => Thrown
       end)
      (fetch_events this rawAuthors ++ scan_events req m0 confirmed
       ++ [SetClaComment m0]
       ++ match setClaComment (pullComments this) m0 with
          | Resolved _ => verdict_events m0
          | Rejected => []
          end)
| Shape_updated (rawAuthors : list Author) (organizationMembers : list string)
    (confirmed : list Author) (f : ClaFile) (added : list Author) :
    let req := required_spec this rawAuthors organizationMembers in
    let m0 := mapSignedAuthors (ledger s) req in
    let m1 := mapSignedAuthors f req in
    evaluates context this ->
    getAuthors (pullAuthors this) = Resolved rawAuthors ->
    members_answer this = Resolved organizationMembers ->
    req <> [] ->
    getClaFile (claFileRepository this) = Resolved tt ->
    getNewSignatures (pullComments this) m0 = Resolved confirmed ->
    addSignature (ledger s) confirmed = (f, added) ->
    added <> [] ->
    Shape context this s
      (if writeback_resolves this added m1 then Returned (allSigned m1) else Thrown)
      (fetch_events this rawAuthors ++ scan_events req m0 confirmed
       ++ writeback_events req added m1
       ++ (if writeback_resolves this added m1 then verdict_events m1 else [])).

End Shapes.

(** * Properties *)

Section Facts.

Context `{ClaData}.

Implicit Types (this : ClaRunner) (s : State) (context : Context).

(** ** States and the monad *)

Lemma emit_nil s : emit s [] = s.
Proof. destruct s; unfold emit; cbn. now rewrite app_nil_r. Qed.

Lemma emit_emit s es es' : emit (emit s es) es' = emit s (es ++ es').
Proof. unfold emit; cbn. now rewrite app_assoc. Qed.

(** Bring the traces on both sides into right-nested form. *)
Ltac normalize_trace :=
  repeat (progress (rewrite <- ?app_assoc; cbn -[String.append])).

Lemma bind_Returned {A B : Type} (m : M A) (k : A -> M B) s a s' :
  m s = (Returned a, s') -> (x <- m ;; k x) s = k a s'.
Proof. intros E. cbn. now rewrite E. Qed.

Lemma bind_Thrown {A B : Type} (m : M A) (k : A -> M B) s s' :
  m s = (Thrown, s') -> (x <- m ;; k x) s = (Thrown, s').
Proof. intros E. cbn. now rewrite E. Qed.

Lemma length_eqb_0 {A : Type} (l : list A) :
  l <> [] -> Nat.eqb (length l) 0 = false.
Proof. destruct l; [congruence | reflexivity]. Qed.

Lemma filter_none {A : Type} (p : A -> bool) (l : list A) :
  (forall x, In x l -> p x = false) -> filter p l = [].
Proof.
  induction l as [|a l IH]; cbn; intros Hp; [reflexivity|].
  rewrite (Hp a (or_introl eq_refl)). apply IH. intros x Hx. apply Hp. now right.
Qed.

Lemma includes_In (l : list string) (x : string) :
  includes l x = true <-> In x l.
Proof.
  unfold includes. rewrite existsb_exists. split.
  - intros [y [Hy E]]. apply String.eqb_eq in E. now subst.
  - intros Hx. exists x. split; [assumption | apply String.eqb_refl].
Qed.

(** ** The private methods *)

Lemma lockPullRequest_run this s :
  lockPullRequest this s = (Returned (Resolved tt), emit s (lock_events this)).
Proof.
  unfold lockPullRequest, lock_events, async, await, octokit_issues_lock, call,
    core_info, core_error, log.
  cbn.
  destruct (issues_lock _ _ _ _) as [[]|]; cbn; rewrite !emit_emit; reflexivity.
Qed.

Lemma getOrganizationMembers_run this s :
  getOrganizationMembers this s = (Returned (members_answer this), emit s (members_call this)).
Proof.
  unfold getOrganizationMembers, members_answer, members_call, async, await,
    octokit_orgs_listMembers, call, log.
  destruct (allowOrganizationMembers (settings this)); cbn.
  - destruct (orgs_listMembers _ _); reflexivity.
  - now rewrite emit_nil.
Qed.

Lemma requiredAuthors_run this rawAuthors organizationMembers s :
  requiredAuthors this rawAuthors organizationMembers s
  = (Returned (required_spec this rawAuthors organizationMembers),
     emit s (map IsUserAllowlisted rawAuthors)).
Proof.
  unfold requiredAuthors, required_spec.
  revert s. induction rawAuthors as [|a l IH]; intros s.
  - cbn. now rewrite emit_nil.
  - cbn [filterM map filter].
    unfold allowlist_isUserAllowlisted at 1, log. cbn.
    rewrite IH. cbn. rewrite emit_emit. unfold required.
    destruct (negb (isUserAllowlisted _ a) && _); reflexivity.
Qed.

(** ** The two early exits *)

(** C4: on a "closed" event [execute] attempts the lock and returns [true]
    for every ledger, context and set of collaborators; the lock request and
    the two log lines around it are the only calls it makes, and the file
    object and the ledger are left as they were. *)
Theorem execute_closed context this s :
  payloadAction (settings this) = "closed" ->
  execute context this s = (Returned true, emit s (lock_events this)) /\
  filter is_write (lock_events this)
  = [IssuesLock (localRepositoryOwner (settings this))
                (localRepositoryName (settings this))
                (pullRequestNumber (settings this))] /\
  Forall (fun e => match e with
                   | CoreInfo _ | CoreError _ | IssuesLock _ _ _ => True
                   | _ => False
                   end) (lock_events this).
Proof.
  intros Hclosed. split; [|split].
  - unfold execute. rewrite Hclosed. cbn [String.eqb Ascii.eqb Bool.eqb].
    unfold await. rewrite (bind_Returned _ _ _ _ _ (bind_Returned _ _ _ _ _
      (lockPullRequest_run this s))).
    reflexivity.
  - unfold lock_events. cbn. destruct (issues_lock _ _ _ _); reflexivity.
  - unfold lock_events. repeat constructor. destruct (issues_lock _ _ _ _); exact I.
Qed.

(** C8: an "issue_comment" event whose issue is not a pull request makes
    [execute] return [true] after one log line; no collaborator is called
    and the state is otherwise untouched. *)
Theorem execute_skips_plain_issue_comment context this s :
  payloadAction (settings this) = "issue_comment" ->
  not_pull_request context = true ->
  execute context this s = (Returned true, emit s [CoreInfo "Skipping issue comment"]).
Proof.
  intros Haction Hissue. unfold execute. rewrite Haction, Hissue. reflexivity.
Qed.

(** C9: when the platform rejects the lock request, [lockPullRequest] logs
    the failure and still resolves, and [execute] on a "closed" event still
    returns [true]. *)
Theorem lock_failure_is_swallowed context this s :
  issues_lock (octokitLocal (settings this))
    (localRepositoryOwner (settings this))
    (localRepositoryName (settings this))
    (pullRequestNumber (settings this)) = Rejected ->
  let events :=
    [ CoreInfo ("Locking pull request #" ++ string_of_N (pullRequestNumber (settings this))
                ++ " to safe guard the pull request's CLA signatures.");
      IssuesLock (localRepositoryOwner (settings this))
                 (localRepositoryName (settings this))
                 (pullRequestNumber (settings this));
      CoreError ("Failed to lock pull request #"
                 ++ string_of_N (pullRequestNumber (settings this)) ++ ".") ] in
  lockPullRequest this s = (Returned (Resolved tt), emit s events) /\
  (payloadAction (settings this) = "closed" ->
   execute context this s = (Returned true, emit s events)).
Proof.
  intros Hlock events.
  assert (Hevents : lock_events this = events).
  { unfold lock_events, events. now rewrite Hlock. }
  split.
  - rewrite lockPullRequest_run. now rewrite Hevents.
  - intros Hclosed. unfold execute. rewrite Hclosed. cbn [String.eqb Ascii.eqb Bool.eqb].
    unfold await. rewrite (bind_Returned _ _ _ _ _ (bind_Returned _ _ _ _ _
      (lockPullRequest_run this s))).
    now rewrite Hevents.
Qed.

(** ** The evaluation path *)

Lemma fetch_run context this s rawAuthors organizationMembers :
  getAuthors (pullAuthors this) = Resolved rawAuthors ->
  members_answer this = Resolved organizationMembers ->
  await (Promise_all2 (pullAuthors_getAuthors this) (getOrganizationMembers this)) s
  = (Returned (rawAuthors, organizationMembers), emit s ([GetAuthors] ++ members_call this)).
Proof.
  intros Hauthors Hmembers.
  unfold await, Promise_all2, pullAuthors_getAuthors, call, log.
  cbn -[getOrganizationMembers].
  rewrite getOrganizationMembers_run, Hauthors, Hmembers. cbn.
  now rewrite emit_emit.
Qed.

(** Everything [execute] does once some author is required, the CLA file
    loads and the comment scan answers. *)
Lemma execute_evaluation_run context this s rawAuthors organizationMembers
    confirmed f added :
  let req := required_spec this rawAuthors organizationMembers in
  let m0 := mapSignedAuthors (ledger s) req in
  let m1 := mapSignedAuthors f req in
  evaluates context this ->
  getAuthors (pullAuthors this) = Resolved rawAuthors ->
  members_answer this = Resolved organizationMembers ->
  req <> [] ->
  getClaFile (claFileRepository this) = Resolved tt ->
  getNewSignatures (pullComments this) m0 = Resolved confirmed ->
  addSignature (ledger s) confirmed = (f, added) ->
  execute context this s
  = if Nat.ltb 0 (length added) then
      (if writeback_resolves this added m1 then Returned (allSigned m1) else Thrown,
       {| claFile := Some f;
          ledger := match commitClaFile (claFileRepository this)
                            ("Add " ++ join ", " (map name added) ++ ".") with
                    | Resolved _ => f
                    | Rejected => ledger s
                    end;
          trace := trace s ++ fetch_events this rawAuthors ++ scan_events req m0 confirmed
                     ++ writeback_events req added m1
                     ++ (if writeback_resolves this added m1 then verdict_events m1 else []) |})
    else
      (match setClaComment (pullComments this) m0 with
       | Resolved _ => Returned (allSigned m0)
       | Rejected => Thrown
       end,
       {| claFile := Some f;
          ledger := ledger s;
          trace := trace s ++ fetch_events this rawAuthors ++ scan_events req m0 confirmed
                     ++ [SetClaComment m0]
                     ++ match setClaComment (pullComments this) m0 with
                        | Resolved _ => verdict_events m0
                        | Rejected => []
                        end |}).
Proof.
  intros req m0 m1 [Hclosed Hskip] Hauthors Hmembers Hreq Hfile Hscan Hadd.
  unfold execute. rewrite Hclosed, Hskip.
  rewrite (bind_Returned _ _ _ _ _ (fetch_run context this s _ _ Hauthors Hmembers)).
  rewrite (bind_Returned _ _ _ _ _ (requiredAuthors_run this _ _ _)).
  fold req. rewrite emit_emit.
  rewrite (length_eqb_0 _ Hreq).
  unfold core_debug, core_setFailed, log, await, claFileRepository_getClaFile,
    claFile_mapSignedAuthors, pullComments_getNewSignatures, claFile_addSignature,
    authorMap_allSigned, claFileRepository_commitClaFile,
    blockchainPoster_postToBlockchain, pullComments_setClaComment,
    pullCheckRunner_rerunLastCheck, call, log, emit, set_claFile, set_ledger.
  unfold writeback_resolves, fetch_events, scan_events, writeback_events, verdict_events.
  cbn -[String.append Nat.ltb]. rewrite Hfile.
  cbn -[String.append Nat.ltb]. fold m0. rewrite Hscan.
  cbn -[String.append Nat.ltb]. rewrite Hadd.
  cbn -[String.append Nat.ltb].
  destruct (Nat.ltb 0 (length added)).
  - cbn -[String.append]. fold m1.
    destruct (commitClaFile (claFileRepository this) _) as [[]|];
      destruct (postToBlockchain (blockchainPoster this) added) as [[]|];
      destruct (setClaComment (pullComments this) m1) as [[]|];
      destruct (rerunLastCheck (pullCheckRunner this)) as [[]|];
      cbn -[String.append]; try destruct (allSigned m1);
      normalize_trace; reflexivity.
  - destruct (setClaComment _ m0) as [[]|];
      cbn -[String.append]; try destruct (allSigned m0);
      normalize_trace; reflexivity.
Qed.

(** ** What a computation can emit *)

Section Emits.

Variable P : Event -> Prop.

Lemma emits_ret {A : Type} (a : A) : emits P (ret a).
Proof. intros s. exists []. cbn. now rewrite app_nil_r. Qed.

Lemma emits_raise {A : Type} : emits P (raise tt : M A).
Proof. intros s. exists []. cbn. now rewrite app_nil_r. Qed.

Lemma emits_bind {A B : Type} (m : M A) (k : A -> M B) :
  emits P m -> (forall a, emits P (k a)) -> emits P (x <- m ;; k x).
Proof.
  intros Hm Hk s. destruct (Hm s) as [es [E F]]. cbn.
  destruct (m s) as [[a|] s1]; cbn in E |- *.
  - destruct (Hk a s1) as [es' [E' F']]. exists (es ++ es').
    rewrite E', E, app_assoc. split; [reflexivity | now apply Forall_app].
  - now exists es.
Qed.

Lemma emits_catch {A : Type} (m : M A) (h : unit -> M A) :
  emits P m -> (forall u, emits P (h u)) -> emits P (catch m h).
Proof.
  intros Hm Hh s. destruct (Hm s) as [es [E F]]. cbn.
  destruct (m s) as [[a|] s1]; cbn in E |- *.
  - now exists es.
  - destruct (Hh tt s1) as [es' [E' F']]. exists (es ++ es').
    rewrite E', E, app_assoc. split; [reflexivity | now apply Forall_app].
Qed.

Lemma emits_log (e : Event) : P e -> emits P (log e).
Proof. intros He s. exists [e]. cbn. split; [reflexivity | now constructor]. Qed.

Lemma emits_call {A : Type} (e : Event) (p : Promise A) : P e -> emits P (call e p).
Proof.
  intros He. unfold call. apply emits_bind; [now apply emits_log | intros; apply emits_ret].
Qed.

Lemma emits_await {A : Type} (m : M (Promise A)) : emits P m -> emits P (await m).
Proof.
  intros Hm. unfold await. apply emits_bind; [assumption|].
  intros [a|]; [apply emits_ret | apply emits_raise].
Qed.

Lemma emits_async {A : Type} (m : M A) : emits P m -> emits P (async m).
Proof.
  intros Hm. unfold async. apply emits_catch.
  - apply emits_bind; [assumption | intros; apply emits_ret].
  - intros; apply emits_ret.
Qed.

Lemma emits_Promise_all2 {A B : Type} (m1 : M (Promise A)) (m2 : M (Promise B)) :
  emits P m1 -> emits P m2 -> emits P (Promise_all2 m1 m2).
Proof.
  intros H1 H2. unfold Promise_all2.
  apply emits_bind; [assumption | intros p1].
  apply emits_bind; [assumption | intros p2]. apply emits_ret.
Qed.

Lemma emits_Promise_all {A : Type} (ms : list (M (Promise A))) :
  Forall (emits P) ms -> emits P (Promise_all ms).
Proof.
  induction 1 as [|m ms Hm _ IH]; cbn [Promise_all].
  - apply emits_ret.
  - apply emits_bind; [assumption | intros p].
    apply emits_bind; [assumption | intros ps]. apply emits_ret.
Qed.

Lemma emits_filterM {A : Type} (p : A -> M bool) (l : list A) :
  (forall a, emits P (p a)) -> emits P (filterM p l).
Proof.
  intros Hp. induction l as [|a l IH]; cbn [filterM].
  - apply emits_ret.
  - apply emits_bind; [apply Hp | intros b].
    apply emits_bind; [assumption | intros r]. apply emits_ret.
Qed.

Lemma emits_getClaFile this : P GetClaFile -> emits P (claFileRepository_getClaFile this).
Proof.
  intros He s. exists [GetClaFile]. unfold claFileRepository_getClaFile.
  destruct (getClaFile _) as [[]|]; cbn; (split; [reflexivity | now constructor]).
Qed.

Lemma emits_commitClaFile this message :
  P (CommitClaFile message) -> emits P (claFileRepository_commitClaFile this message).
Proof.
  intros He s. exists [CommitClaFile message]. unfold claFileRepository_commitClaFile.
  destruct (commitClaFile _ _) as [[]|], (claFile s);
    cbn; (split; [reflexivity | now constructor]).
Qed.

Lemma emits_mapSignedAuthors authors :
  P (MapSignedAuthors authors) -> emits P (claFile_mapSignedAuthors authors).
Proof.
  intros He s. unfold claFile_mapSignedAuthors. destruct (claFile s); cbn.
  - exists [MapSignedAuthors authors]. split; [reflexivity | now constructor].
  - exists []. now rewrite app_nil_r.
Qed.

Lemma emits_addSignature authors :
  P (AddSignature authors) -> emits P (claFile_addSignature authors).
Proof.
  intros He s. unfold claFile_addSignature. destruct (claFile s) as [f|]; cbn.
  - destruct (addSignature f authors). cbn.
    exists [AddSignature authors]. split; [reflexivity | now constructor].
  - exists []. now rewrite app_nil_r.
Qed.

End Emits.

Ltac emits_step :=
  lazymatch goal with
  | |- emits _ (ret _) => apply emits_ret
  | |- emits _ (raise _) => apply emits_raise
  | |- emits _ (bind ?m ?k) => apply (emits_bind _ m k)
  | |- emits _ (catch ?m ?h) => apply (emits_catch _ m h)
  | |- emits _ (log _) => apply emits_log; reflexivity
  | |- emits _ (call _ _) => apply emits_call; reflexivity
  | |- emits _ (await _) => apply emits_await
  | |- emits _ (async _) => apply emits_async
  | |- emits _ (Promise_all2 _ _) => apply emits_Promise_all2
  | |- emits _ (Promise_all _) => apply emits_Promise_all
  | |- emits _ (filterM _ _) => apply emits_filterM
  | |- emits _ (claFileRepository_getClaFile _) => apply emits_getClaFile; reflexivity
  | |- emits _ (claFileRepository_commitClaFile _ _) => apply emits_commitClaFile; reflexivity
  | |- emits _ (claFile_mapSignedAuthors _) => apply emits_mapSignedAuthors; reflexivity
  | |- emits _ (claFile_addSignature _) => apply emits_addSignature; reflexivity
  | |- emits _ (if ?b then _ else _) => destruct b
  | |- emits _ (let (_, _) := ?x in _) => destruct x
  | |- emits _ (match ?x with Resolved _ => _ | Rejected => _ end) => destruct x
  | |- Forall _ (_ :: _) => apply Forall_cons
  | |- Forall _ [] => apply Forall_nil
  | |- forall _, _ => intro
  end.

Lemma getOrganizationMembers_disabled_emits (P : Event -> Prop) this :
  allowOrganizationMembers (settings this) = false ->
  emits P (getOrganizationMembers this).
Proof.
  intros Hoff s. exists []. rewrite getOrganizationMembers_run.
  unfold members_call. rewrite Hoff. cbn. split; [reflexivity | constructor].
Qed.

Lemma execute_emits_no_listMembers context this :
  allowOrganizationMembers (settings this) = false ->
  emits (fun e => is_OrgsListMembers e = false) (execute context this).
Proof.
  intros Hoff.
  pose proof (getOrganizationMembers_disabled_emits
                (fun e => is_OrgsListMembers e = false) this Hoff) as Hmembers.
  unfold execute, lockPullRequest, requiredAuthors, core_info, core_debug, core_error,
    core_setFailed, octokit_issues_lock, pullAuthors_getAuthors,
    allowlist_isUserAllowlisted, pullComments_getNewSignatures,
    pullComments_setClaComment, blockchainPoster_postToBlockchain,
    pullCheckRunner_rerunLastCheck, authorMap_allSigned.
  repeat first [ exact Hmembers | emits_step ].
Qed.

(** ** Filtering the authors *)

Lemma filter_Subsequence {A : Type} (p : A -> bool) (l : list A) :
  Subsequence (filter p l) l.
Proof.
  induction l as [|a l IH]; cbn.
  - constructor.
  - destruct (p a); now constructor.
Qed.

Lemma required_true_iff this organizationMembers a :
  required this organizationMembers a = true <->
  isUserAllowlisted (allowlist this) a = false /\ ~ In (name a) organizationMembers.
Proof.
  unfold required. rewrite andb_true_iff, !negb_true_iff, <- includes_In.
  now rewrite not_true_iff_false.
Qed.

(** C3: the value of [requiredAuthors] is the filter of the fetched author
    list by "not allowlisted and name not among the organization members":
    it keeps the original order, it contains exactly the fetched authors
    that pass the test, and so no author that is allowlisted or whose name
    is in the member list appears in it. *)
Theorem requiredAuthors_filters this rawAuthors organizationMembers s :
  exists req,
    requiredAuthors this rawAuthors organizationMembers s
    = (Returned req, emit s (map IsUserAllowlisted rawAuthors)) /\
    req = filter (fun a => negb (isUserAllowlisted (allowlist this) a)
                           && negb (includes organizationMembers (name a)))
                 rawAuthors /\
    Subsequence req rawAuthors /\
    (forall a, In a req <->
               In a rawAuthors /\
               isUserAllowlisted (allowlist this) a = false /\
               ~ In (name a) organizationMembers) /\
    (forall a, In a rawAuthors ->
               isUserAllowlisted (allowlist this) a = true \/
               In (name a) organizationMembers ->
               ~ In a req).
Proof.
  exists (required_spec this rawAuthors organizationMembers).
  assert (Hiff : forall a,
             In a (required_spec this rawAuthors organizationMembers) <->
             In a rawAuthors /\
             isUserAllowlisted (allowlist this) a = false /\
             ~ In (name a) organizationMembers).
  { intros a. unfold required_spec. now rewrite filter_In, required_true_iff. }
  split; [|split; [|split; [|split]]].
  - apply requiredAuthors_run.
  - reflexivity.
  - apply filter_Subsequence.
  - exact Hiff.
  - intros a _ [Hallow | Hmember] Hin; apply Hiff in Hin as [_ [Hno Hout]].
    + congruence.
    + contradiction.
Qed.

(** C10: with [allowOrganizationMembers] off, [getOrganizationMembers]
    resolves to the empty list without touching the state, the await of
    lines 57 to 60 hands the filter that empty list, no run of [execute]
    issues an [orgs.listMembers] request, and filtering against the empty
    list keeps every fetched author that is not allowlisted. *)
Theorem organization_members_disabled this :
  allowOrganizationMembers (settings this) = false ->
  (forall s, getOrganizationMembers this s = (Returned (Resolved []), s)) /\
  (forall s rawAuthors,
      getAuthors (pullAuthors this) = Resolved rawAuthors ->
      await (Promise_all2 (pullAuthors_getAuthors this) (getOrganizationMembers this)) s
      = (Returned (rawAuthors, []), emit s [GetAuthors])) /\
  (forall context s,
      exists es, trace (snd (execute context this s)) = trace s ++ es /\
                 forall org, ~ In (OrgsListMembers org) es) /\
  (forall rawAuthors s,
      exists req s',
        requiredAuthors this rawAuthors [] s = (Returned req, s') /\
        forall a, In a rawAuthors ->
                  isUserAllowlisted (allowlist this) a = false -> In a req).
Proof.
  intros Hoff.
  assert (Hanswer : members_answer this = Resolved []).
  { unfold members_answer. now rewrite Hoff. }
  assert (Hcall : members_call this = []).
  { unfold members_call. now rewrite Hoff. }
  split; [|split; [|split]].
  - intros s. rewrite getOrganizationMembers_run, Hanswer, Hcall. now rewrite emit_nil.
  - intros s rawAuthors Hauthors.
    rewrite (fetch_run (Build_Context (Build_Payload None)) this s rawAuthors []
               Hauthors Hanswer).
    now rewrite Hcall.
  - intros context s.
    destruct (execute_emits_no_listMembers context this Hoff s) as [es [E F]].
    exists es. split; [assumption|].
    intros org Hin. rewrite Forall_forall in F. now apply F in Hin.
  - intros rawAuthors s. eexists. eexists. split; [apply requiredAuthors_run|].
    intros a Hin Hallow. unfold required_spec. rewrite filter_In, required_true_iff.
    now repeat split.
Qed.

(** C7: when the filter leaves no author, [execute] returns [true] right
    after logging that fact.  The only calls of the run are the author and
    member fetches and the allowlist tests: nothing is written, the CLA file
    is not requested, and file object and ledger are left as they were. *)
Theorem execute_no_required_authors context this s rawAuthors organizationMembers :
  evaluates context this ->
  getAuthors (pullAuthors this) = Resolved rawAuthors ->
  members_answer this = Resolved organizationMembers ->
  required_spec this rawAuthors organizationMembers = [] ->
  let events :=
    [GetAuthors] ++ members_call this ++ map IsUserAllowlisted rawAuthors
    ++ [CoreInfo "No committers left after allowlisting. Approving pull request."] in
  execute context this s = (Returned true, emit s events) /\
  filter is_write events = [] /\
  ~ In GetClaFile events.
Proof.
  intros [Hclosed Hskip] Hauthors Hmembers Hnone events.
  assert (Hcalls : forall e, In e events ->
            e = GetAuthors \/ (exists org, e = OrgsListMembers org) \/
            (exists a, e = IsUserAllowlisted a) \/ exists msg, e = CoreInfo msg).
  { intros e. unfold events, members_call. rewrite !in_app_iff, in_map_iff.
    intros [[E|[]] | [Hin | [[a [E _]] | [E|[]]]]]; subst; eauto.
    destruct (allowOrganizationMembers _); [destruct Hin as [E|[]]; subst; eauto | destruct Hin]. }
  split; [|split].
  - unfold execute. rewrite Hclosed, Hskip.
    rewrite (bind_Returned _ _ _ _ _ (fetch_run context this s _ _ Hauthors Hmembers)).
    rewrite (bind_Returned _ _ _ _ _ (requiredAuthors_run this _ _ _)).
    rewrite Hnone. cbn. unfold emit. cbn. unfold events. now normalize_trace.
  - apply filter_none. intros e Hin. destruct (Hcalls e Hin) as [E | [[org E] | [[a E] | [msg E]]]];
      subst; reflexivity.
  - intros Hin. destruct (Hcalls _ Hin) as [E | [[org E] | [[a E] | [msg E]]]];
      discriminate.
Qed.

(** ** The verdict and the write-back *)

Lemma ltb_0_length {A : Type} (l : list A) :
  Nat.ltb 0 (length l) = negb (match l with [] => true | _ => false end).
Proof. now destruct l. Qed.

Lemma fetch_scan_no_write this rawAuthors req m confirmed :
  filter is_write (fetch_events this rawAuthors ++ scan_events req m confirmed) = [].
Proof.
  apply filter_none. intros e. unfold fetch_events, members_call, scan_events.
  rewrite !in_app_iff, in_map_iff.
  intros [[[E|[]] | [Hin | [a [E _]]]] | Hin]; subst; try reflexivity.
  - destruct (allowOrganizationMembers _); [destruct Hin as [E|[]]; now subst | destruct Hin].
  - cbn in Hin. repeat (destruct Hin as [E|Hin]; [now subst|]). destruct Hin.
Qed.

Lemma fetch_scan_no_verdict this rawAuthors req m confirmed e :
  In e (fetch_events this rawAuthors ++ scan_events req m confirmed) ->
  (forall m', e <> AllSigned m') /\ (forall msg, e <> CoreSetFailed msg).
Proof.
  unfold fetch_events, members_call, scan_events.
  rewrite !in_app_iff, in_map_iff.
  intros [[[E|[]] | [Hin | [a [E _]]]] | Hin]; subst; try (split; intros; discriminate).
  - destruct (allowOrganizationMembers _);
      [destruct Hin as [E|[]]; subst; split; intros; discriminate | destruct Hin].
  - cbn in Hin.
    repeat (destruct Hin as [E|Hin]; [subst; split; intros; discriminate|]).
    destruct Hin.
Qed.

(** C1: in the evaluation path with some author required, when every
    awaited request succeeds, [execute] returns [allSigned] of the author
    map as last assigned (recomputed from the updated file when signatures
    were added, the first map otherwise).  The [allSigned] query is followed
    by [core.setFailed] exactly when the answer is [false], and that is the
    last event of the run; no failure signal is raised earlier. *)
Theorem execute_verdict context this s rawAuthors organizationMembers confirmed f added :
  let req := required_spec this rawAuthors organizationMembers in
  let m0 := mapSignedAuthors (ledger s) req in
  let m1 := mapSignedAuthors f req in
  let authorMap := if Nat.ltb 0 (length added) then m1 else m0 in
  evaluates context this ->
  getAuthors (pullAuthors this) = Resolved rawAuthors ->
  members_answer this = Resolved organizationMembers ->
  req <> [] ->
  getClaFile (claFileRepository this) = Resolved tt ->
  getNewSignatures (pullComments this) m0 = Resolved confirmed ->
  addSignature (ledger s) confirmed = (f, added) ->
  (if Nat.ltb 0 (length added)
   then writeback_resolves this added m1 = true
   else setClaComment (pullComments this) m0 = Resolved tt) ->
  exists s' es,
    execute context this s = (Returned (allSigned authorMap), s') /\
    trace s' = trace s ++ es ++ AllSigned authorMap ::
                 (if allSigned authorMap then []
                  else [CoreSetFailed "Waiting on additional CLA signatures."]) /\
    forall msg, ~ In (CoreSetFailed msg) es.
Proof.
  intros req m0 m1 authorMap Hev Hauthors Hmembers Hreq Hfile Hscan Hadd Hwrite.
  rewrite (execute_evaluation_run context this s rawAuthors organizationMembers
             confirmed f added Hev Hauthors Hmembers Hreq Hfile Hscan Hadd).
  fold req m0 m1. subst authorMap.
  assert (Hquiet : forall l msg,
            In (CoreSetFailed msg) (fetch_events this rawAuthors
                                    ++ scan_events req m0 confirmed ++ l) ->
            In (CoreSetFailed msg) l).
  { intros l msg. unfold fetch_events, members_call, scan_events.
    rewrite !in_app_iff, in_map_iff.
    intros [[[E|[]] | [Hin | [a [E _]]]] | [Hin | Hin]]; try discriminate; [| |assumption].
    - destruct (allowOrganizationMembers _); [destruct Hin as [E|[]]; discriminate | destruct Hin].
    - cbn in Hin. repeat (destruct Hin as [E|Hin]; [discriminate|]). destruct Hin. }
  destruct (Nat.ltb 0 (length added)).
  - rewrite Hwrite. eexists. eexists. split; [reflexivity|]. cbn [trace]. split.
    + unfold verdict_events.
      instantiate (1 := fetch_events this rawAuthors ++ scan_events req m0 confirmed
                          ++ writeback_events req added m1).
      now rewrite <- !app_assoc.
    + intros msg Hin. apply Hquiet in Hin. cbn in Hin.
      repeat (destruct Hin as [E|Hin]; [discriminate|]). destruct Hin.
  - rewrite Hwrite. eexists. eexists. split; [reflexivity|]. cbn [trace]. split.
    + unfold verdict_events.
      instantiate (1 := fetch_events this rawAuthors ++ scan_events req m0 confirmed
                          ++ [SetClaComment m0]).
      now rewrite <- !app_assoc.
    + intros msg Hin. apply Hquiet in Hin. cbn in Hin.
      repeat (destruct Hin as [E|Hin]; [discriminate|]). destruct Hin.
Qed.

(** C2: when [addSignature] reports new signatures, [execute] recomputes
    the author map from the updated file object, with no write before it,
    and then issues, in this order, [commitClaFile] with the message
    "Add <names>." built from the new signers' names, [postToBlockchain]
    with the new signatures, [setClaComment] with the recomputed map and
    [rerunLastCheck].  The [allSigned] verdict follows only when all four
    succeed; when one of them fails the run ends there by throwing. *)
Theorem execute_new_signatures context this s rawAuthors organizationMembers
    confirmed f added :
  let req := required_spec this rawAuthors organizationMembers in
  let m0 := mapSignedAuthors (ledger s) req in
  let m1 := mapSignedAuthors f req in
  evaluates context this ->
  getAuthors (pullAuthors this) = Resolved rawAuthors ->
  members_answer this = Resolved organizationMembers ->
  req <> [] ->
  getClaFile (claFileRepository this) = Resolved tt ->
  getNewSignatures (pullComments this) m0 = Resolved confirmed ->
  addSignature (ledger s) confirmed = (f, added) ->
  added <> [] ->
  exists outcome s' before after,
    execute context this s = (outcome, s') /\
    claFile s' = Some f /\
    trace s' = trace s ++ before
               ++ [ MapSignedAuthors req;
                    CommitClaFile ("Add " ++ join ", " (map name added) ++ ".");
                    PostToBlockchain added;
                    SetClaComment m1;
                    RerunLastCheck ]
               ++ after /\
    filter is_write before = [] /\
    (writeback_resolves this added m1 = true ->
     outcome = Returned (allSigned m1) /\
     after = AllSigned m1 ::
               (if allSigned m1 then []
                else [CoreSetFailed "Waiting on additional CLA signatures."])) /\
    (writeback_resolves this added m1 = false ->
     outcome = Thrown /\ after = []).
Proof.
  intros req m0 m1 Hev Hauthors Hmembers Hreq Hfile Hscan Hadd Hnew.
  rewrite (execute_evaluation_run context this s rawAuthors organizationMembers
             confirmed f added Hev Hauthors Hmembers Hreq Hfile Hscan Hadd).
  fold req m0 m1.
  replace (Nat.ltb 0 (length added)) with true by (destruct added; [congruence | reflexivity]).
  eexists. eexists.
  exists (fetch_events this rawAuthors ++ scan_events req m0 confirmed
          ++ [CoreDebug ("Found new signatures: " ++ join ", " (map name added) ++ ".")]).
  exists (if writeback_resolves this added m1 then verdict_events m1 else []).
  split; [reflexivity|]. cbn [claFile trace]. split; [reflexivity|]. split; [|split; [|split]].
  - unfold writeback_events. now rewrite <- !app_assoc.
  - rewrite app_assoc, filter_app, fetch_scan_no_write. reflexivity.
  - intros Hall. now rewrite Hall.
  - intros Hsome. now rewrite Hsome.
Qed.

(** C5, as the code has it: a failing [postToBlockchain] is not isolated.
    The commit, the comment refresh and the check rerun are still issued
    next to it, but [execute] then throws with these four requests as the
    last calls of the run: there is no [allSigned] query and no
    [core.setFailed] anywhere in the run, and no returned verdict. *)
Theorem notarization_failure_aborts context this s rawAuthors organizationMembers
    confirmed f added :
  let req := required_spec this rawAuthors organizationMembers in
  let m0 := mapSignedAuthors (ledger s) req in
  let m1 := mapSignedAuthors f req in
  evaluates context this ->
  getAuthors (pullAuthors this) = Resolved rawAuthors ->
  members_answer this = Resolved organizationMembers ->
  req <> [] ->
  getClaFile (claFileRepository this) = Resolved tt ->
  getNewSignatures (pullComments this) m0 = Resolved confirmed ->
  addSignature (ledger s) confirmed = (f, added) ->
  added <> [] ->
  postToBlockchain (blockchainPoster this) added = Rejected ->
  exists s' before,
    execute context this s = (Thrown, s') /\
    trace s' = trace s ++ before
               ++ [ CommitClaFile ("Add " ++ join ", " (map name added) ++ ".");
                    PostToBlockchain added;
                    SetClaComment m1;
                    RerunLastCheck ] /\
    filter is_write before = [] /\
    (forall m, ~ In (AllSigned m) before) /\
    (forall msg, ~ In (CoreSetFailed msg) before).
Proof.
  intros req m0 m1 Hev Hauthors Hmembers Hreq Hfile Hscan Hadd Hnew Hpost.
  rewrite (execute_evaluation_run context this s rawAuthors organizationMembers
             confirmed f added Hev Hauthors Hmembers Hreq Hfile Hscan Hadd).
  fold req m0 m1.
  replace (Nat.ltb 0 (length added)) with true by (destruct added; [congruence | reflexivity]).
  assert (Hsome : writeback_resolves this added m1 = false).
  { unfold writeback_resolves. rewrite Hpost. now destruct (commitClaFile _ _). }
  rewrite Hsome. eexists.
  exists (fetch_events this rawAuthors ++ scan_events req m0 confirmed
          ++ [CoreDebug ("Found new signatures: " ++ join ", " (map name added) ++ ".");
              MapSignedAuthors req]).
  split; [reflexivity|]. cbn [trace]. split; [|split; [|split]].
  - unfold writeback_events. rewrite app_nil_r. now rewrite <- !app_assoc.
  - rewrite app_assoc, filter_app, fetch_scan_no_write. reflexivity.
  - intros m Hin. rewrite app_assoc in Hin. apply in_app_or in Hin as [Hin|Hin].
    + now apply (proj1 (fetch_scan_no_verdict _ _ _ _ _ _ Hin) m).
    + destruct Hin as [E|[E|[]]]; discriminate.
  - intros msg Hin. rewrite app_assoc in Hin. apply in_app_or in Hin as [Hin|Hin].
    + now apply (proj2 (fetch_scan_no_verdict _ _ _ _ _ _ Hin) msg).
    + destruct Hin as [E|[E|[]]]; discriminate.
Qed.

(** C6: when [addSignature] reports nothing new, the only write of the run
    is one [setClaComment] carrying the map computed from the file as
    loaded; no commit, notarization or check rerun is issued and the ledger
    is the one the run started with, whether or not the comment request
    succeeds. *)
Theorem execute_no_new_signatures context this s rawAuthors organizationMembers
    confirmed f :
  let req := required_spec this rawAuthors organizationMembers in
  let m0 := mapSignedAuthors (ledger s) req in
  evaluates context this ->
  getAuthors (pullAuthors this) = Resolved rawAuthors ->
  members_answer this = Resolved organizationMembers ->
  req <> [] ->
  getClaFile (claFileRepository this) = Resolved tt ->
  getNewSignatures (pullComments this) m0 = Resolved confirmed ->
  addSignature (ledger s) confirmed = (f, []) ->
  exists outcome s' es,
    execute context this s = (outcome, s') /\
    trace s' = trace s ++ es /\
    filter is_write es = [SetClaComment m0] /\
    ledger s' = ledger s.
Proof.
  intros req m0 Hev Hauthors Hmembers Hreq Hfile Hscan Hadd.
  rewrite (execute_evaluation_run context this s rawAuthors organizationMembers
             confirmed f [] Hev Hauthors Hmembers Hreq Hfile Hscan Hadd).
  fold req m0. cbn [length Nat.ltb Nat.leb].
  eexists. eexists. eexists. split; [reflexivity|]. cbn [trace ledger].
  split; [|split]; [| |reflexivity].
  - reflexivity.
  - rewrite app_assoc, filter_app, fetch_scan_no_write. cbn.
    destruct (setClaComment _ m0); [|reflexivity].
    unfold verdict_events. cbn. now destruct (allSigned m0).
Qed.

(** ** Every run has one of the shapes *)

Lemma execute_closed_run context this s :
  payloadAction (settings this) = "closed" ->
  execute context this s = (Returned true, emit s (lock_events this)).
Proof.
  intros Hclosed. unfold execute. rewrite Hclosed. cbn [String.eqb Ascii.eqb Bool.eqb].
  unfold await. now rewrite (bind_Returned _ _ _ _ _ (bind_Returned _ _ _ _ _
    (lockPullRequest_run this s))).
Qed.

Lemma execute_skipped_run context this s :
  payloadAction (settings this) = "issue_comment" ->
  not_pull_request context = true ->
  execute context this s = (Returned true, emit s [CoreInfo "Skipping issue comment"]).
Proof. intros Haction Hissue. unfold execute. now rewrite Haction, Hissue. Qed.

Lemma fetch_rejected_run this s :
  getAuthors (pullAuthors this) = Rejected \/ members_answer this = Rejected ->
  await (Promise_all2 (pullAuthors_getAuthors this) (getOrganizationMembers this)) s
  = (Thrown, emit s ([GetAuthors] ++ members_call this)).
Proof.
  intros Hrejected.
  unfold await, Promise_all2, pullAuthors_getAuthors, call, log.
  cbn -[getOrganizationMembers]. rewrite getOrganizationMembers_run. cbn.
  rewrite emit_emit.
  destruct Hrejected as [E|E]; rewrite E; [reflexivity|].
  now destruct (getAuthors _).
Qed.

Lemma execute_fetch_rejected_run context this s :
  evaluates context this ->
  getAuthors (pullAuthors this) = Rejected \/ members_answer this = Rejected ->
  execute context this s = (Thrown, emit s ([GetAuthors] ++ members_call this)).
Proof.
  intros [Hclosed Hskip] Hrejected. unfold execute. rewrite Hclosed, Hskip.
  now rewrite (bind_Thrown _ _ _ _ (fetch_rejected_run this s Hrejected)).
Qed.

Lemma execute_none_required_run context this s rawAuthors organizationMembers :
  evaluates context this ->
  getAuthors (pullAuthors this) = Resolved rawAuthors ->
  members_answer this = Resolved organizationMembers ->
  required_spec this rawAuthors organizationMembers = [] ->
  execute context this s
  = (Returned true,
     emit s (fetch_events this rawAuthors
             ++ [CoreInfo "No committers left after allowlisting. Approving pull request."])).
Proof.
  intros [Hclosed Hskip] Hauthors Hmembers Hnone.
  unfold execute. rewrite Hclosed, Hskip.
  rewrite (bind_Returned _ _ _ _ _ (fetch_run context this s _ _ Hauthors Hmembers)).
  rewrite (bind_Returned _ _ _ _ _ (requiredAuthors_run this _ _ _)).
  rewrite Hnone. cbn. unfold emit, fetch_events. cbn. now normalize_trace.
Qed.

Lemma execute_file_rejected_run context this s rawAuthors organizationMembers :
  let req := required_spec this rawAuthors organizationMembers in
  evaluates context this ->
  getAuthors (pullAuthors this) = Resolved rawAuthors ->
  members_answer this = Resolved organizationMembers ->
  req <> [] ->
  getClaFile (claFileRepository this) = Rejected ->
  execute context this s
  = (Thrown, emit s (fetch_events this rawAuthors ++ load_events req)).
Proof.
  intros req [Hclosed Hskip] Hauthors Hmembers Hreq Hfile.
  unfold execute. rewrite Hclosed, Hskip.
  rewrite (bind_Returned _ _ _ _ _ (fetch_run context this s _ _ Hauthors Hmembers)).
  rewrite (bind_Returned _ _ _ _ _ (requiredAuthors_run this _ _ _)).
  fold req. rewrite emit_emit. rewrite (length_eqb_0 _ Hreq).
  unfold core_debug, log, await, claFileRepository_getClaFile, emit,
    fetch_events, load_events.
  cbn -[String.append Nat.ltb]. rewrite Hfile.
  cbn -[String.append Nat.ltb]. now normalize_trace.
Qed.

Lemma execute_scan_rejected_run context this s rawAuthors organizationMembers :
  let req := required_spec this rawAuthors organizationMembers in
  let m0 := mapSignedAuthors (ledger s) req in
  evaluates context this ->
  getAuthors (pullAuthors this) = Resolved rawAuthors ->
  members_answer this = Resolved organizationMembers ->
  req <> [] ->
  getClaFile (claFileRepository this) = Resolved tt ->
  getNewSignatures (pullComments this) m0 = Rejected ->
  execute context this s
  = (Thrown,
     {| claFile := Some (ledger s);
        ledger := ledger s;
        trace := trace s ++ fetch_events this rawAuthors ++ load_events req
                   ++ [MapSignedAuthors req; GetNewSignatures m0] |}).
Proof.
  intros req m0 [Hclosed Hskip] Hauthors Hmembers Hreq Hfile Hscan.
  unfold execute. rewrite Hclosed, Hskip.
  rewrite (bind_Returned _ _ _ _ _ (fetch_run context this s _ _ Hauthors Hmembers)).
  rewrite (bind_Returned _ _ _ _ _ (requiredAuthors_run this _ _ _)).
  fold req. rewrite emit_emit. rewrite (length_eqb_0 _ Hreq).
  unfold core_debug, log, await, claFileRepository_getClaFile,
    claFile_mapSignedAuthors, pullComments_getNewSignatures, call, log, emit,
    set_claFile, fetch_events, load_events.
  cbn -[String.append Nat.ltb]. rewrite Hfile.
  cbn -[String.append Nat.ltb]. fold m0. rewrite Hscan.
  cbn -[String.append Nat.ltb]. now normalize_trace.
Qed.

Lemma list_eq_nil_dec {A : Type} (l : list A) : l = [] \/ l <> [].
Proof. destruct l; [now left | right; discriminate]. Qed.

Lemma evaluates_dec context this :
  payloadAction (settings this) = "closed" \/
  (payloadAction (settings this) = "issue_comment" /\ not_pull_request context = true) \/
  evaluates context this.
Proof.
  unfold evaluates.
  destruct (String.eqb_spec (payloadAction (settings this)) "closed") as [E|_];
    [now left | right].
  destruct (String.eqb_spec (payloadAction (settings this)) "issue_comment") as [E|_];
    [|now right].
  destruct (not_pull_request context); [left | right]; now repeat split.
Qed.

(** Whatever the collaborators answer, the run has one of the shapes. *)
Lemma execute_Shape context this s :
  exists es,
    trace (snd (execute context this s)) = trace s ++ es /\
    Shape context this s (fst (execute context this s)) es.
Proof.
  destruct (evaluates_dec context this) as [Hclosed | [[Haction Hissue] | Hev]].
  - rewrite (execute_closed_run context this s Hclosed).
    eexists. split; [reflexivity | now apply Shape_closed].
  - rewrite (execute_skipped_run context this s Haction Hissue).
    eexists. split; [reflexivity | now apply Shape_skipped].
  - destruct (getAuthors (pullAuthors this)) as [rawAuthors|] eqn:Hauthors.
    2:{ rewrite (execute_fetch_rejected_run context this s Hev (or_introl Hauthors)).
        eexists. split; [reflexivity | apply Shape_fetch_rejected; auto]. }
    destruct (members_answer this) as [organizationMembers|] eqn:Hmembers.
    2:{ rewrite (execute_fetch_rejected_run context this s Hev (or_intror Hmembers)).
        eexists. split; [reflexivity | apply Shape_fetch_rejected; auto]. }
    destruct (required_spec this rawAuthors organizationMembers) as [|r0 req'] eqn:Ereq.
    { rewrite (execute_none_required_run context this s _ _ Hev Hauthors Hmembers Ereq).
      eexists. split; [reflexivity | now apply (Shape_none_required _ _ _ _ organizationMembers)]. }
    assert (Hreq : required_spec this rawAuthors organizationMembers <> [])
      by (rewrite Ereq; discriminate).
    clear Ereq.
    destruct (getClaFile (claFileRepository this)) as [[]|] eqn:Hfile.
    2:{ rewrite (execute_file_rejected_run context this s _ _ Hev Hauthors Hmembers Hreq Hfile).
        eexists. split; [reflexivity|].
        now apply (Shape_file_rejected _ _ _ _ organizationMembers). }
    destruct (getNewSignatures (pullComments this)
                (mapSignedAuthors (ledger s)
                   (required_spec this rawAuthors organizationMembers)))
      as [confirmed|] eqn:Hscan.
    2:{ rewrite (execute_scan_rejected_run context this s _ _
                   Hev Hauthors Hmembers Hreq Hfile Hscan).
        eexists. split; [reflexivity|].
        now apply (Shape_scan_rejected _ _ _ _ organizationMembers). }
    destruct (addSignature (ledger s) confirmed) as [f added] eqn:Hadd.
    rewrite (execute_evaluation_run context this s _ _ _ _ _
               Hev Hauthors Hmembers Hreq Hfile Hscan Hadd).
    destruct (list_eq_nil_dec added) as [Enone | Hsome].
    + subst added. cbn [length Nat.ltb Nat.leb]. eexists. split; [reflexivity|].
      now apply (Shape_unchanged _ _ _ _ organizationMembers confirmed f).
    + replace (Nat.ltb 0 (length added)) with true
        by (destruct added; [congruence | reflexivity]).
      eexists. split; [reflexivity|].
      now apply (Shape_updated _ _ _ _ organizationMembers confirmed f added).
Qed.

(** ** Rejected requests *)

(** Take apart a membership hypothesis over appended and literal lists. *)
Ltac split_in H :=
  repeat match type of H with
         | In _ (_ ++ _) => apply in_app_or in H; destruct H as [H|H]
         | In _ (_ :: _) => destruct H as [H|H]
         | In _ [] => destruct H
         | In _ (map _ _) => apply in_map_iff in H; destruct H as [? [H _]]
         end.

Ltac unfold_events :=
  unfold lock_events, fetch_events, members_call, load_events, scan_events,
    writeback_events, verdict_events in *.

(** Decide the answers a list of events or an outcome depends on. *)
Ltac case_answers :=
  repeat match goal with
         | H : context [if ?b then _ else _] |- _ => destruct b eqn:?
         | |- context [if ?b then _ else _] => destruct b eqn:?
         | H : context [match ?p with Resolved _ => _ | Rejected => _ end] |- _ =>
             destruct p eqn:?
         | |- context [match ?p with Resolved _ => _ | Rejected => _ end] =>
             destruct p eqn:?
         end.

(** X1: when [getAuthors] is rejected in a run that is neither "closed"
    nor a skipped issue comment, [execute] throws.  Both fetches of line 57
    were issued by then, so the member listing is still requested when the
    exemption is on; the allowlist is not consulted, the CLA file is not
    loaded and state is otherwise untouched. *)
Theorem authors_failure_propagates context this s :
  evaluates context this ->
  getAuthors (pullAuthors this) = Rejected ->
  execute context this s
  = (Thrown,
     emit s (GetAuthors ::
             (if allowOrganizationMembers (settings this)
              then [OrgsListMembers (localRepositoryOwner (settings this))]
              else []))).
Proof.
  intros Hev Hauthors.
  now rewrite (execute_fetch_rejected_run context this s Hev (or_introl Hauthors)).
Qed.

(** X2: with the organization exemption on, a rejected [orgs.listMembers]
    makes [getOrganizationMembers] reject rather than throw, and [execute]
    throws after the two fetches whatever [getAuthors] answered; nothing is
    filtered, loaded or written. *)
Theorem members_failure_propagates context this s :
  evaluates context this ->
  allowOrganizationMembers (settings this) = true ->
  orgs_listMembers (octokitLocal (settings this))
    (localRepositoryOwner (settings this)) = Rejected ->
  getOrganizationMembers this s
  = (Returned Rejected, emit s [OrgsListMembers (localRepositoryOwner (settings this))]) /\
  execute context this s
  = (Thrown, emit s [GetAuthors; OrgsListMembers (localRepositoryOwner (settings this))]).
Proof.
  intros Hev Hon Hlist.
  assert (Hanswer : members_answer this = Rejected).
  { unfold members_answer. now rewrite Hon, Hlist. }
  assert (Hcall : members_call this
                  = [OrgsListMembers (localRepositoryOwner (settings this))]).
  { unfold members_call. now rewrite Hon. }
  split.
  - now rewrite getOrganizationMembers_run, Hanswer, Hcall.
  - rewrite (execute_fetch_rejected_run context this s Hev (or_intror Hanswer)).
    now rewrite Hcall.
Qed.

(** X3: when some author is required and [getClaFile] is rejected,
    [execute] throws right after the request: the two debug lines were
    logged, no author map was computed, the comments were not scanned,
    nothing was written and the state is otherwise untouched. *)
Theorem file_load_failure_propagates context this s rawAuthors organizationMembers :
  let req := required_spec this rawAuthors organizationMembers in
  evaluates context this ->
  getAuthors (pullAuthors this) = Resolved rawAuthors ->
  members_answer this = Resolved organizationMembers ->
  req <> [] ->
  getClaFile (claFileRepository this) = Rejected ->
  let events :=
    [GetAuthors] ++ members_call this ++ map IsUserAllowlisted rawAuthors
    ++ [ CoreDebug ("Found a total of " ++ string_of_N (N.of_nat (length req))
                    ++ " authors after allowlisting.");
         CoreDebug ("Authors: " ++ join ", " (map name req));
         GetClaFile ] in
  execute context this s = (Thrown, emit s events) /\
  filter is_write events = [].
Proof.
  intros req Hev Hauthors Hmembers Hreq Hfile events.
  split.
  - rewrite (execute_file_rejected_run context this s _ _ Hev Hauthors Hmembers Hreq Hfile).
    fold req. unfold events, fetch_events, load_events. now rewrite <- !app_assoc.
  - apply filter_none. intros e Hin. unfold events, members_call in Hin.
    case_answers; split_in Hin; subst; reflexivity.
Qed.

(** X4: when the comment scan [getNewSignatures] is rejected, [execute]
    throws: [addSignature] is never called, the status comment is not
    refreshed, nothing is committed or notarized and no verdict is reached. *)
Theorem scan_failure_propagates context this s rawAuthors organizationMembers :
  let req := required_spec this rawAuthors organizationMembers in
  let m0 := mapSignedAuthors (ledger s) req in
  evaluates context this ->
  getAuthors (pullAuthors this) = Resolved rawAuthors ->
  members_answer this = Resolved organizationMembers ->
  req <> [] ->
  getClaFile (claFileRepository this) = Resolved tt ->
  getNewSignatures (pullComments this) m0 = Rejected ->
  exists s' before,
    execute context this s = (Thrown, s') /\
    trace s' = trace s ++ before ++ [MapSignedAuthors req; GetNewSignatures m0] /\
    filter is_write before = [] /\
    (forall l, ~ In (AddSignature l) before) /\
    (forall m, ~ In (AllSigned m) before).
Proof.
  intros req m0 Hev Hauthors Hmembers Hreq Hfile Hscan.
  rewrite (execute_scan_rejected_run context this s _ _
             Hev Hauthors Hmembers Hreq Hfile Hscan).
  fold req m0. eexists. exists (fetch_events this rawAuthors ++ load_events req).
  split; [reflexivity|]. cbn [trace]. split; [now rewrite <- !app_assoc|].
  split; [|split].
  - apply filter_none. intros e Hin. unfold_events.
    case_answers; split_in Hin; subst; reflexivity.
  - intros l Hin. unfold_events. case_answers; split_in Hin; discriminate.
  - intros m Hin. unfold_events. case_answers; split_in Hin; discriminate.
Qed.

(** X5: in the branch without new signatures a rejected [setClaComment]
    makes [execute] throw with the comment request as the last call of the
    run: [allSigned] is never queried, so even a pull request whose authors
    have all signed gets no verdict. *)
Theorem comment_failure_propagates context this s rawAuthors organizationMembers
    confirmed f :
  let req := required_spec this rawAuthors organizationMembers in
  let m0 := mapSignedAuthors (ledger s) req in
  evaluates context this ->
  getAuthors (pullAuthors this) = Resolved rawAuthors ->
  members_answer this = Resolved organizationMembers ->
  req <> [] ->
  getClaFile (claFileRepository this) = Resolved tt ->
  getNewSignatures (pullComments this) m0 = Resolved confirmed ->
  addSignature (ledger s) confirmed = (f, []) ->
  setClaComment (pullComments this) m0 = Rejected ->
  exists s' before,
    execute context this s = (Thrown, s') /\
    trace s' = trace s ++ before ++ [SetClaComment m0] /\
    filter is_write before = [] /\
    (forall m, ~ In (AllSigned m) before).
Proof.
  intros req m0 Hev Hauthors Hmembers Hreq Hfile Hscan Hadd Hcomment.
  rewrite (execute_evaluation_run context this s rawAuthors organizationMembers
             confirmed f [] Hev Hauthors Hmembers Hreq Hfile Hscan Hadd).
  fold req m0. cbn [length Nat.ltb Nat.leb]. rewrite Hcomment.
  eexists. exists (fetch_events this rawAuthors ++ scan_events req m0 confirmed).
  split; [reflexivity|]. cbn [trace]. split; [|split].
  - rewrite app_nil_r. now rewrite <- !app_assoc.
  - apply fetch_scan_no_write.
  - intros m Hin. unfold_events. case_answers; split_in Hin; discriminate.
Qed.

(** X6: in the branch with new signatures the four requests of lines 81
    to 84 stand or fall together: when any one of them is rejected
    [execute] throws, after all four were issued and without a verdict. *)
Theorem writeback_failure_propagates context this s rawAuthors organizationMembers
    confirmed f added :
  let req := required_spec this rawAuthors organizationMembers in
  let m0 := mapSignedAuthors (ledger s) req in
  let m1 := mapSignedAuthors f req in
  evaluates context this ->
  getAuthors (pullAuthors this) = Resolved rawAuthors ->
  members_answer this = Resolved organizationMembers ->
  req <> [] ->
  getClaFile (claFileRepository this) = Resolved tt ->
  getNewSignatures (pullComments this) m0 = Resolved confirmed ->
  addSignature (ledger s) confirmed = (f, added) ->
  added <> [] ->
  commitClaFile (claFileRepository this) ("Add " ++ join ", " (map name added) ++ ".")
  = Rejected \/
  postToBlockchain (blockchainPoster this) added = Rejected \/
  setClaComment (pullComments this) m1 = Rejected \/
  rerunLastCheck (pullCheckRunner this) = Rejected ->
  exists s' before,
    execute context this s = (Thrown, s') /\
    trace s' = trace s ++ before
               ++ [ CommitClaFile ("Add " ++ join ", " (map name added) ++ ".");
                    PostToBlockchain added;
                    SetClaComment m1;
                    RerunLastCheck ] /\
    filter is_write before = [].
Proof.
  intros req m0 m1 Hev Hauthors Hmembers Hreq Hfile Hscan Hadd Hnew Hrejected.
  rewrite (execute_evaluation_run context this s rawAuthors organizationMembers
             confirmed f added Hev Hauthors Hmembers Hreq Hfile Hscan Hadd).
  fold req m0 m1.
  replace (Nat.ltb 0 (length added)) with true by (destruct added; [congruence | reflexivity]).
  assert (Hsome : writeback_resolves this added m1 = false).
  { unfold writeback_resolves.
    destruct Hrejected as [E | [E | [E | E]]]; rewrite E;
      repeat match goal with
             | |- context [match ?p with Resolved _ => _ | Rejected => _ end] => destruct p
             end; reflexivity. }
  rewrite Hsome. eexists.
  exists (fetch_events this rawAuthors ++ scan_events req m0 confirmed
          ++ [CoreDebug ("Found new signatures: " ++ join ", " (map name added) ++ ".");
              MapSignedAuthors req]).
  split; [reflexivity|]. cbn [trace]. split.
  - unfold writeback_events. rewrite app_nil_r. now rewrite <- !app_assoc.
  - rewrite app_assoc, filter_app, fetch_scan_no_write. reflexivity.
Qed.

(** ** What holds of every run *)

(** Reason by cases on the shape of the run from [s]. *)
Ltac by_shape ctx this s es Sh :=
  let E := fresh "E" in
  let o := fresh "outcome" in
  destruct (execute_Shape ctx this s) as [es [E Sh]];
  exists es; split; [exact E|]; clear E;
  set (o := fst (execute ctx this s)) in *; clearbody o;
  destruct Sh.

Lemma evaluates_not_closed context this :
  evaluates context this -> payloadAction (settings this) <> "closed".
Proof. intros [Hclosed _] E. rewrite E in Hclosed. discriminate. Qed.

(** X7: whatever the event and whatever the collaborators answer,
    [core.setFailed] is raised in a run exactly when [execute] returns
    [false]: never on a run that returns [true], never on one that throws. *)
Theorem setFailed_iff_false (ctx : Context) this s :
  exists es,
    trace (snd (execute ctx this s)) = trace s ++ es /\
    ((exists msg, In (CoreSetFailed msg) es) <->
     fst (execute ctx this s) = Returned false).
Proof.
  by_shape ctx this s es Sh; unfold_events; case_answers;
    (split;
     [ intros [msg Hin]; split_in Hin; try discriminate; reflexivity
     | intros Hfalse; try discriminate;
       exists "Waiting on additional CLA signatures.";
       rewrite !in_app_iff; cbn [In]; auto 10 ]).
Qed.

(** X8: the verdict and the status comment agree.  In every run, an author
    map on which [allSigned] is queried is the map the [setClaComment] of
    that run carried, and the run returns what the query answered. *)
Theorem verdict_matches_comment (ctx : Context) this s :
  exists es,
    trace (snd (execute ctx this s)) = trace s ++ es /\
    forall m, In (AllSigned m) es ->
              In (SetClaComment m) es /\
              fst (execute ctx this s) = Returned (allSigned m).
Proof.
  by_shape ctx this s es Sh; intros m Hin; unfold_events; case_answers;
    split_in Hin; try discriminate;
    injection Hin as <-;
    (split; [rewrite !in_app_iff; cbn [In]; auto 10 | congruence]).
Qed.

(** X9: the writes of a run follow one of four patterns, whatever the
    collaborators answer: none at all, the lock alone, one status comment
    alone, or the commit, the notarization, the status comment and the
    check rerun together, in that order and for a non-empty list of new
    signatures named in the commit message. *)
Theorem write_patterns (ctx : Context) this s :
  exists es,
    trace (snd (execute ctx this s)) = trace s ++ es /\
    (filter is_write es = [] \/
     filter is_write es
     = [IssuesLock (localRepositoryOwner (settings this))
                   (localRepositoryName (settings this))
                   (pullRequestNumber (settings this))] \/
     (exists m, filter is_write es = [SetClaComment m]) \/
     (exists added m,
         added <> [] /\
         filter is_write es
         = [ CommitClaFile ("Add " ++ join ", " (map name added) ++ ".");
             PostToBlockchain added;
             SetClaComment m;
             RerunLastCheck ])).
Proof.
  by_shape ctx this s es Sh.
  - right; left. unfold lock_events. cbn. now destruct (issues_lock _ _ _ _).
  - left. reflexivity.
  - left. unfold members_call. now case_answers.
  - left. apply filter_none. intros e Hin. unfold_events.
    case_answers; split_in Hin; subst; reflexivity.
  - left. apply filter_none. intros e Hin. unfold_events.
    case_answers; split_in Hin; subst; reflexivity.
  - left. apply filter_none. intros e Hin. unfold_events.
    case_answers; split_in Hin; subst; reflexivity.
  - right; right; left. exists m0.
    rewrite app_assoc, filter_app, fetch_scan_no_write. unfold verdict_events.
    now case_answers.
  - right; right; right. exists added, m1. split; [assumption|].
    rewrite app_assoc, filter_app, fetch_scan_no_write. unfold writeback_events, verdict_events.
    now case_answers.
Qed.

(** X10: the platform lock is requested in a run exactly when the event
    action is "closed", and then for this repository and pull request. *)
Theorem lock_iff_closed (ctx : Context) this s :
  exists es,
    trace (snd (execute ctx this s)) = trace s ++ es /\
    ((exists owner repo number, In (IssuesLock owner repo number) es) <->
     payloadAction (settings this) = "closed") /\
    (forall owner repo number,
        In (IssuesLock owner repo number) es ->
        owner = localRepositoryOwner (settings this) /\
        repo = localRepositoryName (settings this) /\
        number = pullRequestNumber (settings this)).
Proof.
  by_shape ctx this s es Sh;
    (split;
     [ split;
       [ intros [owner [repo [number Hin]]]; unfold_events; case_answers;
         split_in Hin; try discriminate; assumption
       | intros Hclosed;
         try (exfalso; now apply (evaluates_not_closed ctx this));
         try congruence ]
     | intros owner repo number Hin; unfold_events; case_answers;
       split_in Hin; try discriminate; injection Hin as <- <- <-; now repeat split ]).
  unfold lock_events. do 3 eexists. right; left. reflexivity.
Qed.

(** X11: [orgs.listMembers] is requested in a run exactly when the
    organization exemption is on and the run is neither "closed" nor a
    skipped issue comment, and always for the owner of this repository. *)
Theorem listMembers_iff (ctx : Context) this s :
  exists es,
    trace (snd (execute ctx this s)) = trace s ++ es /\
    ((exists org, In (OrgsListMembers org) es) <->
     evaluates ctx this /\ allowOrganizationMembers (settings this) = true) /\
    (forall org, In (OrgsListMembers org) es ->
                 org = localRepositoryOwner (settings this)).
Proof.
  by_shape ctx this s es Sh;
    (split;
     [ split;
       [ intros [org Hin]; unfold_events; case_answers;
         split_in Hin; try discriminate; now split
       | intros [Hev Hon] ]
     | intros org Hin; unfold_events; case_answers;
       split_in Hin; try discriminate; now injection Hin as <- ]);
    try (exfalso; now apply (evaluates_not_closed ctx this));
    try (destruct Hev as [_ Hskip];
         match goal with
         | Ha : payloadAction _ = "issue_comment", Hi : not_pull_request _ = true |- _ =>
             rewrite Ha, Hi in Hskip; discriminate
         end);
    exists (localRepositoryOwner (settings this));
    unfold_events; rewrite Hon, ?in_app_iff; cbn [In]; auto 10.
Qed.

(** X12: the CLA file is requested in a run only after both fetches
    succeeded and left at least one required author, and it is requested
    before any write. *)
Theorem file_loaded_only_when_required (ctx : Context) this s :
  exists es,
    trace (snd (execute ctx this s)) = trace s ++ es /\
    (In GetClaFile es ->
     exists rawAuthors organizationMembers before after,
       getAuthors (pullAuthors this) = Resolved rawAuthors /\
       members_answer this = Resolved organizationMembers /\
       required_spec this rawAuthors organizationMembers <> [] /\
       es = before ++ GetClaFile :: after /\
       filter is_write before = []).
Proof.
  assert (Hprefix : forall rawAuthors req after,
            exists before after',
              fetch_events this rawAuthors ++ load_events req ++ after
              = before ++ GetClaFile :: after' /\
              filter is_write before = []).
  { intros rawAuthors req after.
    exists (fetch_events this rawAuthors
            ++ [ CoreDebug ("Found a total of " ++ string_of_N (N.of_nat (length req))
                            ++ " authors after allowlisting.");
                 CoreDebug ("Authors: " ++ join ", " (map name req)) ]), after.
    split; [unfold load_events; now rewrite <- !app_assoc|].
    apply filter_none. intros e Hin. unfold_events.
    case_answers; split_in Hin; subst; reflexivity. }
  by_shape ctx this s es Sh; intros Hin.
  - unfold_events. case_answers; split_in Hin; discriminate.
  - split_in Hin; discriminate.
  - unfold_events. case_answers; split_in Hin; discriminate.
  - unfold_events. case_answers; split_in Hin; discriminate.
  - destruct (Hprefix rawAuthors req []) as [before [after [E Hw]]].
    exists rawAuthors, organizationMembers, before, after.
    rewrite app_nil_r in E. now repeat split.
  - destruct (Hprefix rawAuthors req [MapSignedAuthors req; GetNewSignatures m0])
      as [before [after [E Hw]]].
    exists rawAuthors, organizationMembers, before, after. now repeat split.
  - match goal with
    | |- context [fetch_events _ _ ++ scan_events _ _ _ ++ ?rest] =>
        destruct (Hprefix rawAuthors req
                    ([MapSignedAuthors req; GetNewSignatures m0; AddSignature confirmed]
                     ++ rest)) as [before [after [E Hw]]]
    end.
    exists rawAuthors, organizationMembers, before, after. now repeat split.
  - match goal with
    | |- context [fetch_events _ _ ++ scan_events _ _ _ ++ ?rest] =>
        destruct (Hprefix rawAuthors req
                    ([MapSignedAuthors req; GetNewSignatures m0; AddSignature confirmed]
                     ++ rest)) as [before [after [E Hw]]]
    end.
    exists rawAuthors, organizationMembers, before, after. now repeat split.
Qed.

(** X16: once a run has requested the CLA file it cannot pass unchecked:
    whatever the collaborators answer, if [execute] then returns [true],
    [allSigned] was queried on an author map, answered [true], and that map
    was the one published with [setClaComment]. *)
Theorem pass_after_load_is_checked (ctx : Context) this s :
  exists es,
    trace (snd (execute ctx this s)) = trace s ++ es /\
    (In GetClaFile es ->
     fst (execute ctx this s) = Returned true ->
     exists m, allSigned m = true /\ In (AllSigned m) es /\ In (SetClaComment m) es).
Proof.
  by_shape ctx this s es Sh; intros Hin Htrue;
    try (unfold_events; case_answers; split_in Hin; discriminate);
    try discriminate.
  - exists m0. destruct (setClaComment (pullComments this) m0); [|discriminate].
    injection Htrue as Htrue. split; [exact Htrue|].
    unfold verdict_events. rewrite !in_app_iff. cbn [In]. auto 10.
  - exists m1. destruct (writeback_resolves this added m1); [|discriminate].
    injection Htrue as Htrue. split; [exact Htrue|].
    unfold writeback_events, verdict_events. rewrite !in_app_iff. cbn [In]. auto 10.
Qed.

(** ** More on the two private methods and the filter *)

(** X13: when the platform accepts the lock, [lockPullRequest] reports the
    success with [core.info] and logs no error, and [execute] on a "closed"
    event returns [true] after exactly these three calls. *)
Theorem lock_success_is_reported context this s :
  issues_lock (octokitLocal (settings this))
    (localRepositoryOwner (settings this))
    (localRepositoryName (settings this))
    (pullRequestNumber (settings this)) = Resolved tt ->
  let events :=
    [ CoreInfo ("Locking pull request #" ++ string_of_N (pullRequestNumber (settings this))
                ++ " to safe guard the pull request's CLA signatures.");
      IssuesLock (localRepositoryOwner (settings this))
                 (localRepositoryName (settings this))
                 (pullRequestNumber (settings this));
      CoreInfo ("Successfully locked pull request #"
                ++ string_of_N (pullRequestNumber (settings this)) ++ ".") ] in
  lockPullRequest this s = (Returned (Resolved tt), emit s events) /\
  (payloadAction (settings this) = "closed" ->
   execute context this s = (Returned true, emit s events)).
Proof.
  intros Hlock events.
  assert (Hevents : lock_events this = events).
  { unfold lock_events, events. now rewrite Hlock. }
  split.
  - now rewrite lockPullRequest_run, Hevents.
  - intros Hclosed. now rewrite (execute_closed_run context this s Hclosed), Hevents.
Qed.

(** X14: with the organization exemption on and the listing answered, the
    await of lines 57 to 60 hands the filter the logins of the listed users
    in their order, after one listing request for the repository owner; the
    filter then keeps exactly the fetched authors that are not allowlisted
    and whose name equals no listed login.  The comparison is exact string
    equality. *)
Theorem members_listing_exempts_by_login this s rawAuthors response :
  allowOrganizationMembers (settings this) = true ->
  orgs_listMembers (octokitLocal (settings this))
    (localRepositoryOwner (settings this)) = Resolved response ->
  getAuthors (pullAuthors this) = Resolved rawAuthors ->
  await (Promise_all2 (pullAuthors_getAuthors this) (getOrganizationMembers this)) s
  = (Returned (rawAuthors, map login (data response)),
     emit s [GetAuthors; OrgsListMembers (localRepositoryOwner (settings this))]) /\
  forall s1, exists req s2,
    requiredAuthors this rawAuthors (map login (data response)) s1 = (Returned req, s2) /\
    forall a, In a req <->
              In a rawAuthors /\
              isUserAllowlisted (allowlist this) a = false /\
              forall user, In user (data response) -> login user <> name a.
Proof.
  intros Hon Hlist Hauthors.
  assert (Hanswer : members_answer this = Resolved (map login (data response))).
  { unfold members_answer. now rewrite Hon, Hlist. }
  split.
  - rewrite (fetch_run (Build_Context (Build_Payload None)) this s _ _ Hauthors Hanswer).
    unfold members_call. now rewrite Hon.
  - intros s1. eexists. eexists. split; [apply requiredAuthors_run|].
    intros a. unfold required_spec. rewrite filter_In, required_true_iff, in_map_iff.
    split.
    + intros [Hin [Hallow Hnone]]. repeat split; try assumption.
      intros user Huser E. apply Hnone. now exists user.
    + intros [Hin [Hallow Hnone]]. repeat split; try assumption.
      intros [user [E Huser]]. now apply (Hnone user).
Qed.

(** X15: the filter adds no duplicate and never grows the list: when the
    fetched authors are pairwise distinct so are the required authors, and
    there are at most as many of them. *)
Theorem requiredAuthors_keeps_distinct this rawAuthors organizationMembers s :
  NoDup rawAuthors ->
  exists req s',
    requiredAuthors this rawAuthors organizationMembers s = (Returned req, s') /\
    NoDup req /\
    length req <= length rawAuthors.
Proof.
  intros Hdistinct. eexists. eexists. split; [apply requiredAuthors_run|].
  unfold required_spec. split; [now apply NoDup_filter | apply filter_length_le].
Qed.

End Facts.

(** * The properties on the spec's scenarios *)

Import Scenario.

Lemma execute_closed_witness :
  payloadAction (settings closed_lock_refused) = "closed" /\
  execute on_pull_request closed_lock_refused (start ["alice"])
  = (Returned true, emit (start ["alice"]) (lock_events closed_lock_refused)).
Proof.
  split; [reflexivity|].
  apply (execute_closed on_pull_request closed_lock_refused (start ["alice"])).
  reflexivity.
Defined.

Lemma execute_skips_plain_issue_comment_witness :
  not_pull_request on_plain_issue = true /\
  execute on_plain_issue plain_issue_comment (start [])
  = (Returned true, emit (start []) [CoreInfo "Skipping issue comment"]).
Proof.
  split; [reflexivity|].
  apply (execute_skips_plain_issue_comment on_plain_issue plain_issue_comment (start []));
    reflexivity.
Defined.

Lemma lock_failure_is_swallowed_witness :
  issues_lock (octokitLocal (settings closed_lock_refused)) "acme" "widgets" 7 = Rejected /\
  execute on_pull_request closed_lock_refused (start [])
  = (Returned true,
     emit (start [])
       [ CoreInfo "Locking pull request #7 to safe guard the pull request's CLA signatures.";
         IssuesLock "acme" "widgets" 7;
         CoreError "Failed to lock pull request #7." ]).
Proof.
  split; [reflexivity|].
  apply (lock_failure_is_swallowed on_pull_request closed_lock_refused (start []));
    reflexivity.
Defined.

Lemma execute_no_required_authors_witness :
  required_spec all_exempt ["carol"; "dependabot"] ["carol"] = [] /\
  execute on_pull_request all_exempt (start [])
  = (Returned true,
     emit (start [])
       [ GetAuthors; OrgsListMembers "acme";
         IsUserAllowlisted "carol"; IsUserAllowlisted "dependabot";
         CoreInfo "No committers left after allowlisting. Approving pull request." ]).
Proof.
  split; [reflexivity|].
  apply (execute_no_required_authors on_pull_request all_exempt (start [])
           ["carol"; "dependabot"] ["carol"]);
    try reflexivity.
  split; reflexivity.
Defined.

Lemma organization_members_disabled_witness :
  allowOrganizationMembers (settings members_off) = false /\
  getOrganizationMembers members_off (start []) = (Returned (Resolved []), start []) /\
  exists es, trace (snd (execute on_pull_request members_off (start []))) = [] ++ es /\
             forall org, ~ In (OrgsListMembers org) es.
Proof.
  split; [reflexivity|].
  destruct (organization_members_disabled members_off eq_refl) as [Hnone [_ [Hrun _]]].
  split; [apply Hnone | apply (Hrun on_pull_request (start []))].
Defined.

Lemma execute_verdict_witness :
  exists s' es,
    execute on_pull_request alice_confirms (start []) = (Returned false, s') /\
    trace s' = [] ++ es ++ [ AllSigned [("alice", true); ("bob", false)];
                             CoreSetFailed "Waiting on additional CLA signatures." ] /\
    forall msg, ~ In (CoreSetFailed msg) es.
Proof.
  apply (execute_verdict on_pull_request alice_confirms (start [])
           ["carol"; "alice"; "bob"] ["carol"] ["alice"] ["alice"] ["alice"]);
    try reflexivity.
  - split; reflexivity.
  - discriminate.
Defined.

Lemma execute_new_signatures_witness :
  exists outcome s' before after,
    execute on_pull_request alice_confirms (start []) = (outcome, s') /\
    claFile s' = Some ["alice"] /\
    trace s' = [] ++ before
               ++ [ MapSignedAuthors ["alice"; "bob"];
                    CommitClaFile "Add alice.";
                    PostToBlockchain ["alice"];
                    SetClaComment [("alice", true); ("bob", false)];
                    RerunLastCheck ]
               ++ after /\
    filter is_write before = [] /\
    (true = true ->
     outcome = Returned false /\
     after = [ AllSigned [("alice", true); ("bob", false)];
               CoreSetFailed "Waiting on additional CLA signatures." ]) /\
    (true = false -> outcome = Thrown /\ after = []).
Proof.
  apply (execute_new_signatures on_pull_request alice_confirms (start [])
           ["carol"; "alice"; "bob"] ["carol"] ["alice"] ["alice"] ["alice"]);
    try reflexivity.
  - split; reflexivity.
  - discriminate.
  - discriminate.
Defined.

Lemma notarization_failure_aborts_witness :
  postToBlockchain (blockchainPoster notarization_down) ["alice"] = Rejected /\
  exists s' before,
    execute on_pull_request notarization_down (start []) = (Thrown, s') /\
    trace s' = [] ++ before
               ++ [ CommitClaFile "Add alice.";
                    PostToBlockchain ["alice"];
                    SetClaComment [("alice", true); ("bob", false)];
                    RerunLastCheck ] /\
    filter is_write before = [] /\
    (forall m, ~ In (AllSigned m) before) /\
    (forall msg, ~ In (CoreSetFailed msg) before).
Proof.
  split; [reflexivity|].
  apply (notarization_failure_aborts on_pull_request notarization_down (start [])
           ["carol"; "alice"; "bob"] ["carol"] ["alice"] ["alice"] ["alice"]);
    try reflexivity.
  - split; reflexivity.
  - discriminate.
  - discriminate.
Defined.

Lemma execute_no_new_signatures_witness :
  exists outcome s' es,
    execute on_pull_request already_signed (start ["alice"]) = (outcome, s') /\
    trace s' = [] ++ es /\
    filter is_write es = [SetClaComment [("alice", true)]] /\
    ledger s' = ["alice"].
Proof.
  apply (execute_no_new_signatures on_pull_request already_signed (start ["alice"])
           ["alice"] ["carol"] [] ["alice"]);
    try reflexivity.
  - split; reflexivity.
  - discriminate.
Defined.

(** C5 as the spec states it fails: with the notarization request the only
    one that is rejected, the commit, the comment refresh and the check
    rerun all succeed, yet [execute] throws and the run has neither an
    [allSigned] query nor a verdict. *)
Lemma notarization_failure_not_isolated :
  postToBlockchain (blockchainPoster notarization_down) ["alice"] = Rejected /\
  commitClaFile (claFileRepository notarization_down) "Add alice." = Resolved tt /\
  setClaComment (pullComments notarization_down) [("alice", true); ("bob", false)]
  = Resolved tt /\
  rerunLastCheck (pullCheckRunner notarization_down) = Resolved tt /\
  execute on_pull_request notarization_down (start [])
  = (Thrown,
     {| claFile := Some ["alice"];
        ledger := ["alice"];
        trace :=
          [ GetAuthors; OrgsListMembers "acme";
            IsUserAllowlisted "carol"; IsUserAllowlisted "alice"; IsUserAllowlisted "bob";
            CoreDebug "Found a total of 2 authors after allowlisting.";
            CoreDebug "Authors: alice, bob";
            GetClaFile;
            MapSignedAuthors ["alice"; "bob"];
            GetNewSignatures [("alice", false); ("bob", false)];
            AddSignature ["alice"];
            CoreDebug "Found new signatures: alice.";
            MapSignedAuthors ["alice"; "bob"];
            CommitClaFile "Add alice.";
            PostToBlockchain ["alice"];
            SetClaComment [("alice", true); ("bob", false)];
            RerunLastCheck ] |}) /\
  ~ exists verdict s', execute on_pull_request notarization_down (start [])
                       = (Returned verdict, s').
Proof.
  repeat (split; [reflexivity|]).
  intros [verdict [s' E]]. vm_compute in E. discriminate E.
Qed.

Lemma authors_failure_propagates_witness :
  getAuthors (pullAuthors (with_authors alice_confirms Rejected)) = Rejected /\
  execute on_pull_request (with_authors alice_confirms Rejected) (start [])
  = (Thrown, emit (start []) [GetAuthors; OrgsListMembers "acme"]).
Proof.
  split; [reflexivity|].
  apply (authors_failure_propagates on_pull_request
           (with_authors alice_confirms Rejected) (start []));
    [split; reflexivity | reflexivity].
Defined.

Lemma members_failure_propagates_witness :
  orgs_listMembers (octokitLocal (settings (with_listing alice_confirms Rejected))) "acme"
  = Rejected /\
  execute on_pull_request (with_listing alice_confirms Rejected) (start [])
  = (Thrown, emit (start []) [GetAuthors; OrgsListMembers "acme"]).
Proof.
  split; [reflexivity|].
  apply (members_failure_propagates on_pull_request
           (with_listing alice_confirms Rejected) (start []));
    [split; reflexivity | reflexivity | reflexivity].
Defined.

Lemma file_load_failure_propagates_witness :
  getClaFile (claFileRepository (with_file_load alice_confirms Rejected)) = Rejected /\
  execute on_pull_request (with_file_load alice_confirms Rejected) (start [])
  = (Thrown,
     emit (start [])
       [ GetAuthors; OrgsListMembers "acme";
         IsUserAllowlisted "carol"; IsUserAllowlisted "alice"; IsUserAllowlisted "bob";
         CoreDebug "Found a total of 2 authors after allowlisting.";
         CoreDebug "Authors: alice, bob";
         GetClaFile ]).
Proof.
  split; [reflexivity|].
  apply (file_load_failure_propagates on_pull_request
           (with_file_load alice_confirms Rejected) (start [])
           ["carol"; "alice"; "bob"] ["carol"]);
    try reflexivity.
  - split; reflexivity.
  - discriminate.
Defined.

Lemma scan_failure_propagates_witness :
  exists s' before,
    execute on_pull_request (with_scan alice_confirms Rejected) (start []) = (Thrown, s') /\
    trace s' = [] ++ before
               ++ [ MapSignedAuthors ["alice"; "bob"];
                    GetNewSignatures [("alice", false); ("bob", false)] ] /\
    filter is_write before = [] /\
    (forall l, ~ In (AddSignature l) before) /\
    (forall m, ~ In (AllSigned m) before).
Proof.
  apply (scan_failure_propagates on_pull_request
           (with_scan alice_confirms Rejected) (start [])
           ["carol"; "alice"; "bob"] ["carol"]);
    try reflexivity.
  - split; reflexivity.
  - discriminate.
Defined.

Lemma comment_failure_propagates_witness :
  allSigned (mapSignedAuthors ["alice"] ["alice"]) = true /\
  exists s' before,
    execute on_pull_request (with_comment already_signed Rejected) (start ["alice"])
    = (Thrown, s') /\
    trace s' = [] ++ before ++ [SetClaComment [("alice", true)]] /\
    filter is_write before = [] /\
    (forall m, ~ In (AllSigned m) before).
Proof.
  split; [reflexivity|].
  apply (comment_failure_propagates on_pull_request
           (with_comment already_signed Rejected) (start ["alice"])
           ["alice"] ["carol"] [] ["alice"]);
    try reflexivity.
  - split; reflexivity.
  - discriminate.
Defined.

Lemma writeback_failure_propagates_witness :
  rerunLastCheck (pullCheckRunner (with_rerun alice_confirms Rejected)) = Rejected /\
  exists s' before,
    execute on_pull_request (with_rerun alice_confirms Rejected) (start []) = (Thrown, s') /\
    trace s' = [] ++ before
               ++ [ CommitClaFile "Add alice.";
                    PostToBlockchain ["alice"];
                    SetClaComment [("alice", true); ("bob", false)];
                    RerunLastCheck ] /\
    filter is_write before = [].
Proof.
  split; [reflexivity|].
  apply (writeback_failure_propagates on_pull_request
           (with_rerun alice_confirms Rejected) (start [])
           ["carol"; "alice"; "bob"] ["carol"] ["alice"] ["alice"] ["alice"]);
    try reflexivity.
  - split; reflexivity.
  - discriminate.
  - discriminate.
  - right; right; right; reflexivity.
Defined.

Lemma lock_success_is_reported_witness :
  issues_lock (octokitLocal (settings closed_lock_accepted)) "acme" "widgets" 7
  = Resolved tt /\
  execute on_pull_request closed_lock_accepted (start [])
  = (Returned true,
     emit (start [])
       [ CoreInfo "Locking pull request #7 to safe guard the pull request's CLA signatures.";
         IssuesLock "acme" "widgets" 7;
         CoreInfo "Successfully locked pull request #7." ]).
Proof.
  split; [reflexivity|].
  apply (lock_success_is_reported on_pull_request closed_lock_accepted (start []));
    reflexivity.
Defined.

Lemma members_listing_exempts_by_login_witness :
  exists req s2,
    requiredAuthors case_differs ["carol"; "Carol"; "dependabot"] ["carol"] (start [])
    = (Returned req, s2) /\
    In "Carol" req /\ ~ In "carol" req.
Proof.
  destruct (members_listing_exempts_by_login case_differs (start [])
              ["carol"; "Carol"; "dependabot"] {| data := [ {| login := "carol" |} ] |}
              eq_refl eq_refl eq_refl) as [_ Hfilter].
  destruct (Hfilter (start [])) as [req [s2 [E Hiff]]].
  exists req, s2. split; [exact E|]. split.
  - apply Hiff. split; [right; left; reflexivity|]. split; [reflexivity|].
    intros user [<-|[]]. discriminate.
  - intros Hin. apply Hiff in Hin as [_ [_ Hnone]].
    now apply (Hnone {| login := "carol" |} (or_introl eq_refl)).
Defined.

Lemma requiredAuthors_keeps_distinct_witness :
  exists req s',
    requiredAuthors alice_confirms ["carol"; "alice"; "bob"] ["carol"] (start [])
    = (Returned req, s') /\
    NoDup req /\
    length req <= 3.
Proof.
  apply (requiredAuthors_keeps_distinct alice_confirms
           ["carol"; "alice"; "bob"] ["carol"] (start [])).
  repeat constructor; cbn; intuition discriminate.
Defined.

